(** * video_edit: the job store, the processing pipeline, the Celery task
      and the HTTP routes, embedded from the Python sources.

    Layout (one Rocq module per Python module):
    - [Py]             the few builtins the sources rely on (truth values,
                       str.strip, os.path.basename, os.path.join);
    - [Redis]          the hash commands the storage layer issues;
    - [storage]        app/core/storage.py;
    - [VideoProcessor] app/services/video_processor.py;
    - [tasks]          app/workers/tasks.py;
    - [worker]         what Celery does with the task, and what awaiting
                       the calls of the task does to the store;
    - [routes], [web], [download]   the FastAPI routers.
    The vocabulary of the statements and the sample inputs follow the
    embedding; the lemmas and theorems come last, grouped by topic. *)

From Stdlib Require Import ZArith QArith String Ascii List Lia.
From stdpp Require Import base option gmap strings list fin_maps pretty.

Open Scope Z_scope.

(* ===================================================================== *)
(** * Python values and builtins                                          *)
(* ===================================================================== *)

(** A value that JSON can put under ["watermark_path"]: a string, or
    something else (a number, a boolean, a list, a dict), of which the
    program meets the truth value and, when it hands it to
    [os.path.join], the message of the [TypeError] raised. *)
Inductive path_value :=
  | Text (s : string)
  | NotText (truthy : bool) (join_error : string).

(** [overlay_settings] is a [Dict[str, Any]]; the program only ever asks it
    for the truth value of ["add_customer_text"] and for
    ["watermark_path"], [None] when the key is absent or null. *)
Record overlay_settings := Overlay {
  add_customer_text : bool;
  watermark_path : option path_value;
}.

(** The values that travel in [job_data] and in the keyword arguments of
    [update_job_status]. Floats are the short decimals of the sources,
    modelled by the rational they denote. *)
Inductive pyval :=
  | PStr (s : string)
  | PFloat (q : Q)
  | PNone
  | PDict (d : overlay_settings).

(** What the interpreter and the libraries contribute and the sources do
    not fix. *)
Class Runtime := {
  (** [datetime.isoformat()] of a clock reading (seconds) *)
  isoformat : Z → string;
  (** [repr(x)] of a float, which is also its [str(x)] *)
  float_repr : Q → string;
  (** [float(s)]; [None] is [ValueError] *)
  float_of_str : string → option Q;
  (** [str(d)] of a dict *)
  dict_str : overlay_settings → string;
  (** [str(e)] of an [HTTPException] with the given status and detail *)
  http_exception_str : Z → string → string;
}.

Module Py.

(** ** Truthiness *)
Definition truthy_str (s : string) : bool :=
  match s with EmptyString => false | _ => true end.

Definition truthy_opt (o : option string) : bool :=
  match o with Some s => truthy_str s | None => false end.

Definition truthy_value (v : path_value) : bool :=
  match v with Text s => truthy_str s | NotText truthy _ => truthy end.

(** ** [str.strip()]
    [c.isspace()] for a character below 256: tab to carriage return, the
    four separators 28 to 31, the space, NEXT LINE (133) and NO-BREAK
    SPACE (160). *)
Definition isspace (c : ascii) : bool :=
  let n := Z.of_nat (nat_of_ascii c) in
  ((9 <=? n) && (n <=? 13)) || ((28 <=? n) && (n <=? 32))
  || (n =? 133) || (n =? 160).

Fixpoint lstrip (s : string) : string :=
  match s with
  | String c r => if isspace c then lstrip r else s
  | EmptyString => EmptyString
  end.

Definition rstrip (s : string) : string :=
  String.rev (lstrip (String.rev s)).

Definition strip (s : string) : string := rstrip (lstrip s).

Fixpoint all_space (s : string) : bool :=
  match s with
  | String c r => isspace c && all_space r
  | EmptyString => true
  end.

(** ** Slices and searches *)
Fixpoint drop (n : nat) (s : string) : string :=
  match n, s with
  | O, _ => s
  | S k, String _ r => drop k r
  | S _, EmptyString => EmptyString
  end.

(** [s.rfind(c)]: the highest index of [c], or [-1]. *)
Fixpoint rfind (c : ascii) (s : string) : Z :=
  match s with
  | EmptyString => -1
  | String a r =>
      let k := rfind c r in
      if 0 <=? k then k + 1
      else if Ascii.eqb a c then 0 else -1
  end.

Definition startswith (c : ascii) (s : string) : bool :=
  match s with String a _ => Ascii.eqb a c | EmptyString => false end.

Fixpoint endswith (c : ascii) (s : string) : bool :=
  match s with
  | EmptyString => false
  | String a EmptyString => Ascii.eqb a c
  | String _ r => endswith c r
  end.

Fixpoint contains (c : ascii) (s : string) : bool :=
  match s with
  | EmptyString => false
  | String a r => Ascii.eqb a c || contains c r
  end.

(** ** posixpath *)
Definition sep : ascii := "/"%char.

(** [os.path.basename(p)]: [i = p.rfind(sep) + 1; return p[i:]] *)
Definition basename (p : string) : string :=
  drop (Z.to_nat (rfind sep p + 1)) p.

(** One round of the loop of [os.path.join]. *)
Definition join_step (path b : string) : string :=
  if startswith sep b then b
  else if negb (truthy_str path) || endswith sep path then path +:+ b
  else path +:+ String sep b.

Definition join (a : string) (ps : list string) : string :=
  fold_left join_step ps a.

(** ** Characters and slices used by the upload code
    [c.isalnum()] for one character: the ASCII letters and digits;
    [high] stands for the answer on the characters from 128 on. *)
Definition isalnum (high : ascii → bool) (c : ascii) : bool :=
  let n := Z.of_nat (nat_of_ascii c) in
  if n <? 128 then
    ((48 <=? n) && (n <=? 57)) || ((65 <=? n) && (n <=? 90))
    || ((97 <=? n) && (n <=? 122))
  else high c.

(** [[c for c in s if keep(c)]], joined *)
Fixpoint keep_chars (keep : ascii → bool) (s : string) : string :=
  match s with
  | EmptyString => EmptyString
  | String c r => if keep c then String c (keep_chars keep r) else keep_chars keep r
  end.

Fixpoint take (n : nat) (s : string) : string :=
  match n, s with
  | S k, String c r => String c (take k r)
  | _, _ => EmptyString
  end.

(** [s[:n]]; a negative [n] counts from the end. *)
Definition slice_to (n : Z) (s : string) : string :=
  if 0 <=? n then take (Z.to_nat n) s
  else take (Z.to_nat (Z.of_nat (String.length s) + n)) s.

Fixpoint map_chars (f : ascii → ascii) (s : string) : string :=
  match s with
  | EmptyString => EmptyString
  | String c r => String (f c) (map_chars f r)
  end.

(** [c.upper()] and [c.lower()] for an ASCII character; the strings they
    are applied to here are ASCII words, other characters are left as
    they are. *)
Definition upper (c : ascii) : ascii :=
  let n := nat_of_ascii c in
  if ((97 <=? n) && (n <=? 122))%nat then ascii_of_nat (n - 32) else c.

Definition lower (c : ascii) : ascii :=
  let n := nat_of_ascii c in
  if ((65 <=? n) && (n <=? 90))%nat then ascii_of_nat (n + 32) else c.

(** [s.capitalize()] *)
Definition capitalize (s : string) : string :=
  match s with
  | EmptyString => EmptyString
  | String c r => String (upper c) (map_chars lower r)
  end.

End Py.

(** [str(v)] *)
Definition py_str `{Runtime} (v : pyval) : string :=
  match v with
  | PStr s => s
  | PFloat q => float_repr q
  | PNone => "None"
  | PDict d => dict_str d
  end.

(* ===================================================================== *)
(** * app/core/config.py                                                  *)
(* ===================================================================== *)

Record Settings := {
  storage_type : string;
  local_storage_path : string;
  temp_storage_path : string;
  assets_path : string;
  aws_access_key_id : option string;
  aws_secret_access_key : option string;
  s3_bucket : option string;
  job_expiry_hours : Z;
  max_concurrent_jobs : Z;
}.

Definition get_intro_path (cfg : Settings) : string :=
  Py.join (assets_path cfg) ["intros"].
Definition get_outro_path (cfg : Settings) : string :=
  Py.join (assets_path cfg) ["outros"].
Definition get_logos_path (cfg : Settings) : string :=
  Py.join (assets_path cfg) ["logos"].

(** The defaults written in the class body. *)
Definition default_settings : Settings := {|
  storage_type := "local";
  local_storage_path := "/app/outputs";
  temp_storage_path := "/app/temp";
  assets_path := "/app/assets";
  aws_access_key_id := None;
  aws_secret_access_key := None;
  s3_bucket := None;
  job_expiry_hours := 24;
  max_concurrent_jobs := 3;
|}.

(* ===================================================================== *)
(** * The outside world of one pipeline run                              *)
(* ===================================================================== *)

(** Answers of the network, the file system, ffmpeg and S3 during one
    attempt of a job. *)
Record world := World {
  (** [download_video(url, output_path)] fetched the file *)
  http_fetch : string → string → bool;
  (** [os.path.exists(path)] and [os.path.isfile(path)] *)
  path_exists : string → bool;
  path_isfile : string → bool;
  (** exit status 0 of [ffmpeg -f concat] on the listed files, to [output] *)
  ffmpeg_concat : list string → string → bool;
  (** exit status 0 of [subprocess.run(cmd)] *)
  ffmpeg_run : list string → bool;
  (** upload and presigned URL for a file; [None] when boto3 raises *)
  s3_presign : string → option string;
}.

(* ===================================================================== *)
(** * The Redis commands used by the storage layer                        *)
(* ===================================================================== *)

Module Redis.

(** A key holds a hash and, when [EXPIRE] was called on it, its
    deadline: the last instant at which it exists. *)
Record entry := Entry {
  fields : gmap string string;
  expire_at : option Z;
}.

(** Redis takes a key for expired once the clock is past its deadline. *)
Definition live (now : Z) (e : entry) : bool :=
  match expire_at e with
  | Some t => bool_decide (now ≤ t)
  | None => true
  end.

(** The hash at [key] as seen at time [now]; a missing or expired key
    reads as the empty hash. *)
Definition hgetall (now : Z) (key : string) (db : gmap string entry)
    : gmap string string :=
  match db !! key with
  | Some e => if live now e then fields e else ∅
  | None => ∅
  end.

(** [HSET key f1 v1 f2 v2 ...]: sets the given fields and leaves the
    others and the time to live alone; creates the key, without a time
    to live, when it does not exist. *)
Definition hset_raw (now : Z) (key : string) (m : gmap string string)
    (db : gmap string entry) : gmap string entry :=
  match db !! key with
  | Some e =>
      if live now e
      then <[key := Entry (m ∪ fields e) (expire_at e)]> db
      else <[key := Entry m None]> db
  | None => <[key := Entry m None]> db
  end.

(** [EXPIRE key seconds]: the deadline is [seconds] from now; with
    [seconds] not positive the key is deleted, which is a deadline
    before now: no instant from now on finds the key. *)
Definition expire (now : Z) (key : string) (seconds : Z)
    (db : gmap string entry) : gmap string entry :=
  match db !! key with
  | Some e =>
      if live now e
      then <[key := Entry (fields e)
                      (Some (if 0 <? seconds then now + seconds else now - 1))]> db
      else db
  | None => db
  end.

Section client.
Context `{Runtime}.

(** The encoder of redis-py: a string goes as it is and a float by its
    [repr]; [None] and a dict are refused with [DataError] ([None]
    here), before anything is sent. *)
Definition encode (v : pyval) : option string :=
  match v with
  | PStr s => Some s
  | PFloat q => Some (float_repr q)
  | PNone | PDict _ => None
  end.

Definition encodable (mapping : gmap string pyval) : Prop :=
  map_Forall (λ _ v, is_Some (encode v)) mapping.

(** [redis_client.hset(key, mapping=...)] on a connected client; [None]
    when the client raises (empty mapping, or a value it refuses). *)
Definition hset (now : Z) (key : string) (mapping : gmap string pyval)
    (db : gmap string entry) : option (gmap string entry) :=
  if decide (mapping = ∅) then None
  else if decide (encodable mapping)
  then Some (hset_raw now key (omap encode mapping) db)
  else None.
End client.

End Redis.

(* ===================================================================== *)
(** * app/core/storage.py                                                 *)
(* ===================================================================== *)

Module storage.

(** The module global [redis_client] is [None] until [init_storage] has
    run in the process.  [init_storage] is awaited by the lifespan of the
    FastAPI application (main.py) and by nothing else; a Celery worker
    loads app/workers/tasks.py in a process of its own, where the global
    stays [None]. *)
Inductive process := ApiServer | CeleryWorker.

Definition redis_client (p : process) : option unit :=
  match p with
  | ApiServer => Some ()
  | CeleryWorker => None
  end.

Section storage.
Context `{Runtime}.
Variable settings : Settings.

(** [store_job_info], [get_job_status] and [update_job_status] below are
    the functions as they run with [redis_client] connected, that is, in
    the API process. *)
Definition job_key (job_id : string) : string := "job:" +:+ job_id.

Definition store_job_info (now : Z) (job_id : string)
    (job_data : gmap string pyval) (db : gmap string Redis.entry)
    : bool * gmap string Redis.entry :=
  let job_data := <["created_at" := PStr (isoformat now)]> job_data in
  match Redis.hset now (job_key job_id) job_data db with
  | Some db1 =>
      (true, Redis.expire now (job_key job_id) (job_expiry_hours settings * 3600) db1)
  | None => (false, db)
  end.

(** The float conversion of [get_job_status]. *)
Definition read_progress (s : string) : pyval :=
  match float_of_str s with
  | Some q => PFloat q
  | None => PFloat 0.0
  end.

Definition get_job_status (now : Z) (job_id : string)
    (db : gmap string Redis.entry) : option (gmap string pyval) :=
  let job_data := Redis.hgetall now (job_key job_id) db in
  if decide (job_data = ∅) then None
  else
    let view := PStr <$> job_data in
    Some match job_data !! "progress" with
         | Some s => <["progress" := read_progress s]> view
         | None => view
         end.

(** The mapping [update_job_status] hands to [hset]: progress as a
    string, and the fresh [updated_at]. *)
Definition stamped (now : Z) (updates : gmap string pyval)
    : gmap string pyval :=
  let updates :=
    match updates !! "progress" with
    | Some p => <["progress" := PStr (py_str p)]> updates
    | None => updates
    end in
  <["updated_at" := PStr (isoformat now)]> updates.

Definition update_job_status (now : Z) (job_id : string)
    (updates : gmap string pyval) (db : gmap string Redis.entry)
    : bool * gmap string Redis.entry :=
  match Redis.hset now (job_key job_id) (stamped now updates) db with
  | Some db1 => (true, db1)
  | None => (false, db)
  end.

(** [update_job_status] as process [p] awaits it: where [redis_client]
    is [None], [redis_client.hset] raises [AttributeError] inside the
    [try] block, the [except] clause logs it and the function answers
    [False]; nothing reaches the store. *)
Definition update_job_status_in (p : process) (now : Z) (job_id : string)
    (updates : gmap string pyval) (db : gmap string Redis.entry)
    : bool * gmap string Redis.entry :=
  match redis_client p with
  | Some _ => update_job_status now job_id updates db
  | None => (false, db)
  end.

Definition local_download_url (file_path : string) : string :=
  "/api/v1/download/" +:+ Py.basename file_path.

Definition upload_to_s3_and_get_url (w : world) (file_path : string)
    : string :=
  if Py.truthy_opt (aws_access_key_id settings)
     && Py.truthy_opt (aws_secret_access_key settings)
     && Py.truthy_opt (s3_bucket settings)
  then
    match s3_presign w file_path with
    | Some download_url => download_url
    | None => local_download_url file_path
    end
  else local_download_url file_path.

Definition get_download_url (w : world) (file_path : string) : string :=
  if String.eqb (storage_type settings) "s3"
  then upload_to_s3_and_get_url w file_path
  else local_download_url file_path.

End storage.
End storage.

(* ===================================================================== *)
(** * app/services/video_processor.py                                     *)
(* ===================================================================== *)

Module VideoProcessor.

(** What a run of [process_video] accumulates: the progress callbacks it
    awaited and the [temp_files] list. *)
Record state := State {
  progress_log : list (Q * string);
  temp_files : list string;
}.

(** A computation either returns or raises [Exception(msg)]. *)
Definition M (A : Type) : Type := state → state * (string + A).

Definition ret {A} (a : A) : M A := λ st, (st, inr a).
Definition raise {A} (msg : string) : M A := λ st, (st, inl msg).
Definition bind {A B} (m : M A) (k : A → M B) : M B :=
  λ st, match m st with
        | (st1, inr a) => k a st1
        | (st1, inl e) => (st1, inl e)
        end.

Declare Scope pipeline_scope.
Delimit Scope pipeline_scope with pipeline.
Notation "'let*' x := m 'in' k" := (bind m (λ x, k))
  (at level 10, x name, m at level 100, k at level 200) : pipeline_scope.
Notation "m >>> k" := (bind m (λ _, k))
  (at level 100, right associativity) : pipeline_scope.
Local Open Scope pipeline_scope.

(** [if progress_callback: await progress_callback(progress, message)],
    for [process_video] as the task calls it: the one callback of the
    repository wraps its body in [try ... except Exception] and so
    returns; [progress_callback] says whether a callback is given. *)
Definition report (progress_callback : bool) (progress : Q)
    (message : string) : M unit :=
  λ st, if progress_callback
        then (State (progress_log st ++ [(progress, message)]) (temp_files st), inr tt)
        else (st, inr tt).

(** [temp_files.append(path)] *)
Definition append_temp (path : string) : M unit :=
  λ st, (State (progress_log st) (temp_files st ++ [path]), inr tt).

(** [if not cond: raise Exception(msg)] *)
Definition require (cond : bool) (msg : string) : M unit :=
  if cond then ret tt else raise msg.

(** [os.path.join(a, *names, v)] for a value [v] of the overlay dict: a
    path for a string, [TypeError] for anything else. *)
Definition join_value (a : string) (names : list string) (v : path_value)
    : M string :=
  match v with
  | Text s => ret (Py.join a (names ++ [s]))
  | NotText _ join_error => raise join_error
  end.

Section VideoProcessor.
Variable settings : Settings.
Variable w : world.

Definition temp_dir : string := temp_storage_path settings.
Definition output_dir : string := local_storage_path settings.
Definition assets_dir : string := assets_path settings.

Definition download_video (url output_path : string) : bool :=
  http_fetch w url output_path.

Definition concatenate_videos (video_paths : list string)
    (output_path : string) : bool :=
  ffmpeg_concat w video_paths output_path.

Definition positions : gmap string string :=
  {[ "top-left" := "10:10";
     "top-right" := "main_w-overlay_w-10:10";
     "bottom-left" := "10:main_h-overlay_h-10";
     "bottom-right" := "main_w-overlay_w-10:main_h-overlay_h-10";
     "center" := "(main_w-overlay_w)/2:(main_h-overlay_h)/2" ]}.

Definition watermark_cmd (input_path output_path watermark_path position : string)
    : list string :=
  let pos := default "main_w-overlay_w-10:main_h-overlay_h-10"
                     (positions !! position) in
  ["ffmpeg"; "-y"; "-i"; input_path; "-i"; watermark_path;
   "-filter_complex"; "[0:v][1:v]overlay=" +:+ pos;
   "-c:a"; "copy"; output_path].

Definition add_watermark (input_path output_path watermark_path position : string)
    : bool :=
  ffmpeg_run w (watermark_cmd input_path output_path watermark_path position).

Definition standard_params : list string :=
  ["-c:v"; "libx264"; "-preset"; "medium"; "-crf"; "23"; "-c:a"; "aac"; "-b:a"; "128k"].

Definition presets : gmap string (list string) :=
  {[ "standard" := standard_params;
     "high" := ["-c:v"; "libx264"; "-preset"; "slow"; "-crf"; "18"; "-c:a"; "aac"; "-b:a"; "256k"];
     "mobile" := ["-c:v"; "libx264"; "-preset"; "fast"; "-crf"; "28"; "-s"; "1280x720"; "-c:a"; "aac"; "-b:a"; "96k"];
     "web" := ["-c:v"; "libx264"; "-preset"; "medium"; "-crf"; "25"; "-s"; "1920x1080"; "-c:a"; "aac"; "-b:a"; "128k"] ]}.

(** The command line [encode_video] hands to [subprocess.run]. *)
Definition encode_cmd (input_path output_path preset : string) : list string :=
  let encoding_params := default standard_params (presets !! preset) in
  ["ffmpeg"; "-y"; "-i"; input_path] ++ encoding_params ++ [output_path].

Definition encode_video (input_path output_path preset : string) : bool :=
  ffmpeg_run w (encode_cmd input_path output_path preset).

(** The asset a clip name stands for, when the name is given and the
    file is there: [if clip: p = join(assets_dir, kind, clip);
    if os.path.exists(p): video_segments.append(p)]. *)
Definition named_asset (kind : string) (clip : option string) : list string :=
  match clip with
  | Some name =>
      if Py.truthy_str name then
        let p := Py.join assets_dir [kind; name] in
        if path_exists w p then [p] else []
      else []
  | None => []
  end.

(** Lines 248 to 266: the segment list. *)
Definition video_segments (input_video : string)
    (intro_clip outro_clip : option string) : list string :=
  named_asset "intros" intro_clip ++ [input_video] ++ named_asset "outros" outro_clip.

Definition empty_overlay : overlay_settings := Overlay false None.

(** The [try] block of [process_video]. *)
Definition pipeline (job_id video_url customer_name : string)
    (intro_clip outro_clip : option string) (transition_style : string)
    (overlay : option overlay_settings) (encoding_preset : string)
    (progress_callback : bool) : M string :=
  let overlay := default empty_overlay overlay in
  report progress_callback 0.1 "Starting video processing..." >>>
  let input_video := Py.join temp_dir [job_id +:+ "_input.mp4"] in
  append_temp input_video >>>
  require (download_video video_url input_video) "Failed to download video" >>>
  report progress_callback 0.3 "Video downloaded, processing..." >>>
  let segments := video_segments input_video intro_clip outro_clip in
  report progress_callback 0.5 "Concatenating video segments..." >>>
  let concat_output := Py.join temp_dir [job_id +:+ "_concat.mp4"] in
  append_temp concat_output >>>
  require (concatenate_videos segments concat_output) "Failed to concatenate videos" >>>
  let current_video := concat_output in
  (if add_customer_text overlay then
     report progress_callback 0.7 "Adding customer text overlay..." >>>
     append_temp (Py.join temp_dir [job_id +:+ "_text.mp4"])
   else ret tt) >>>
  let* current_video :=
    (match watermark_path overlay with
     | Some mark =>
         if Py.truthy_value mark then
           report progress_callback 0.8 "Adding watermark..." >>>
           let watermark_video := Py.join temp_dir [job_id +:+ "_watermark.mp4"] in
           append_temp watermark_video >>>
           let* logo := join_value assets_dir ["logos"] mark in
           if path_exists w logo then
             if add_watermark current_video watermark_video logo "bottom-right"
             then ret watermark_video
             else ret current_video
           else ret current_video
         else ret current_video
     | None => ret current_video
     end) in
  report progress_callback 0.9 "Final encoding..." >>>
  let final_output := Py.join output_dir [job_id +:+ "_final.mp4"] in
  require (encode_video current_video final_output encoding_preset)
          "Failed to encode final video" >>>
  report progress_callback 1.0 "Video processing completed!" >>>
  ret final_output.

(** What the caller of [process_video] sees. *)
Record run := Run {
  callbacks : list (Q * string);
  outcome : string + string;          (** raised message, or output path *)
  cleaned : list string;              (** files the [finally] block removes *)
}.

Definition process_video (job_id video_url customer_name : string)
    (intro_clip outro_clip : option string) (transition_style : string)
    (overlay : option overlay_settings) (encoding_preset : string)
    (progress_callback : bool) : run :=
  let '(st, r) :=
    pipeline job_id video_url customer_name intro_clip outro_clip
             transition_style overlay encoding_preset progress_callback
             (State [] []) in
  Run (progress_log st) r (filter (λ f, path_exists w f = true) (temp_files st)).

End VideoProcessor.
End VideoProcessor.

(* ===================================================================== *)
(** * app/workers/tasks.py                                                *)
(* ===================================================================== *)

Module tasks.

(** The arguments a task message carries. *)
Record args := Args {
  job_id : string;
  video_url : string;
  customer_name : string;
  intro_clip : option string;
  outro_clip : option string;
  transition_style : string;
  overlay : option overlay_settings;
  encoding_preset : string;
}.

(** How one execution of the task body ends: it returns its result
    dict, or [self.retry] re-queues it and raises [Retry], or the
    original exception is raised for good. *)
Inductive exit :=
  | Returned (output_path download_url : string)
  | Retry (exc : string) (countdown : Z)
  | Raised (exc : string).

(** [self.retry(exc=e, countdown=c, max_retries=m)] on a request that
    was already retried [request_retries] times: Celery re-raises [exc]
    when [request_retries + 1 > m] and re-queues the task otherwise. *)
Definition retry (request_retries : nat) (exc : string) (countdown : Z)
    (max_retries : nat) : exit :=
  if decide (max_retries < request_retries + 1)%nat
  then Raised exc
  else Retry exc countdown.

(** The keyword arguments of one [update_job_status] call, given the
    clock reading at the call. *)
Definition call : Type := Z → gmap string pyval.

Section tasks.
Context `{Runtime}.
Variable settings : Settings.

Definition progress_callback (progress : Q) (message : string) : call :=
  λ _, {[ "status" := PStr "processing";
          "progress" := PFloat progress;
          "message" := PStr message ]}.

Definition starting : call :=
  λ _, {[ "status" := PStr "processing";
          "progress" := PFloat 0.0;
          "message" := PStr "Starting video processing..." ]}.

Definition completed (download_url : string) : call :=
  λ now, {[ "status" := PStr "completed";
            "progress" := PFloat 1.0;
            "message" := PStr "Video processing completed successfully";
            "result_url" := PStr download_url;
            "completed_at" := PStr (isoformat now) ]}.

Definition failed (error_msg : string) : call :=
  λ _, {[ "status" := PStr "failed";
          "progress" := PFloat 0.0;
          "message" := PStr "Video processing failed";
          "error" := PStr error_msg ]}.

(** [run_processing] inside a request that was retried [retries] times:
    the store updates it awaits, in order, and how it ends. *)
Definition run_processing (retries : nat) (w : world) (a : args)
    : list call * exit :=
  let r := VideoProcessor.process_video settings w
             (job_id a) (video_url a) (customer_name a)
             (intro_clip a) (outro_clip a) (transition_style a)
             (Some (default VideoProcessor.empty_overlay (overlay a)))
             (encoding_preset a) true in
  let reported := (λ pm, progress_callback pm.1 pm.2) <$> VideoProcessor.callbacks r in
  match VideoProcessor.outcome r with
  | inr output_path =>
      let download_url := storage.get_download_url settings w output_path in
      (starting :: reported ++ [completed download_url],
       Returned output_path download_url)
  | inl error_msg =>
      (starting :: reported ++ [failed error_msg],
       retry retries error_msg 60 2)
  end.

(** The task body runs [run_processing] on a fresh event loop and lets
    whatever it raises through. *)
Definition process_video_task (retries : nat) (w : world) (a : args)
    : list call * exit :=
  run_processing retries w a.

(** [cleanup_expired_jobs]: logs and returns a fixed dict; the store is
    not touched. *)
Definition cleanup_expired_jobs (db : gmap string Redis.entry)
    : gmap string string * gmap string Redis.entry :=
  ({[ "status" := "success"; "message" := "Cleanup completed" ]}, db).

End tasks.
End tasks.

(* ===================================================================== *)
(** * The Celery worker and the store over time                           *)
(* ===================================================================== *)

(** Not a module of the repository: what Celery does with the task (run
    it, run it again after [Retry]) and what awaiting the calls of an
    execution does to the store. *)
Module worker.
Section worker.
Context `{Runtime}.
Variable settings : Settings.

(** One execution of the task as the worker sees it. *)
Record attempt := Attempt {
  writes : list tasks.call;
  result : tasks.exit;
}.

(** The worker: it runs the task and, each time the task ends in
    [Retry], runs it again with [request.retries] one higher. [ws n] is
    the world the execution with [request.retries = n] meets; [more]
    bounds the re-deliveries followed. *)
Fixpoint deliver (more : nat) (retries : nat) (ws : nat → world) (a : tasks.args)
    : list attempt :=
  let '(cs, e) := tasks.process_video_task settings retries (ws retries) a in
  match e, more with
  | tasks.Retry _ _, S k => Attempt cs e :: deliver k (S retries) ws a
  | _, _ => [Attempt cs e]
  end.

(** The calls of a list of executions, in the order they are awaited. *)
Definition all_writes (atts : list attempt) : list tasks.call :=
  concat (writes <$> atts).

(** Awaiting one call of the task at time [t]: the task runs in the
    worker process. *)
Definition perform (job : string) (t : Z) (c : tasks.call)
    (db : gmap string Redis.entry) : gmap string Redis.entry :=
  (storage.update_job_status_in storage.CeleryWorker t job (c t) db).2.

(** The store after each of the calls [cs]; the [i]-th call overall is
    awaited at time [clock i]. *)
Fixpoint replay (job : string) (clock : nat → Z) (i : nat) (cs : list tasks.call)
    (db : gmap string Redis.entry) : list (Z * gmap string Redis.entry) :=
  match cs with
  | [] => []
  | c :: rest =>
      let db1 := perform job (clock i) c db in
      (clock i, db1) :: replay job clock (S i) rest db1
  end.

(** What a status read returns right after each call. *)
Definition status_reads (job : string) (clock : nat → Z) (cs : list tasks.call)
    (db : gmap string Redis.entry) : list (option (gmap string pyval)) :=
  (λ tdb, storage.get_job_status tdb.1 job tdb.2) <$> replay job clock 0 cs db.

End worker.
End worker.

(* ===================================================================== *)
(** * Exceptions and responses of the FastAPI handlers                    *)
(* ===================================================================== *)

Inductive exn :=
  | HTTPException (status_code : Z) (detail : string)
  | PyError (kind message : string).      (** any other [Exception] *)

(** [str(e)] *)
Definition exn_str `{Runtime} (e : exn) : string :=
  match e with
  | HTTPException c d => http_exception_str c d
  | PyError _ m => m
  end.

(** The handlers' [try: ... except HTTPException: raise
    except Exception as e: raise HTTPException(500, detail)]. *)
Definition reraise_http {A} (detail : exn → string) (r : exn + A) : exn + A :=
  match r with
  | inl (HTTPException c d) => inl (HTTPException c d)
  | inl e => inl (HTTPException 500 (detail e))
  | inr a => inr a
  end.

(** [try: ... except Exception as e: raise HTTPException(500, detail)],
    without the clause that lets an [HTTPException] through. *)
Definition wrap_all {A} (detail : exn → string) (r : exn + A) : exn + A :=
  match r with
  | inl e => inl (HTTPException 500 (detail e))
  | inr a => inr a
  end.

(* ===================================================================== *)
(** * app/api/routes.py                                                   *)
(* ===================================================================== *)

Module routes.

Record ProcessVideoRequest := {
  video_url : string;
  customer_name : string;
  intro_clip : option string;
  outro_clip : option string;
  transition_style : string;
  overlay : option overlay_settings;
  encoding_preset : option string;
}.

Record ProcessVideoResponse := {
  pv_job_id : string;
  pv_status : string;
  pv_message : string;
}.

Record JobStatusResponse := {
  job_id : string;
  status : string;
  progress : Q;
  message : string;
  result_url : option string;
  error : option string;
  created_at : string;
  completed_at : option string;
}.

(** What the name [get_job_status] may hand back to a handler that
    awaits it: the storage function returns a dict or [None]; the route
    handler of the same name returns a response model. *)
Inductive fetched :=
  | Dict (job_data : gmap string pyval)
  | NoneValue
  | Model (r : JobStatusResponse).

Definition of_storage (o : option (gmap string pyval)) : fetched :=
  match o with Some d => Dict d | None => NoneValue end.

(** The process: the store and the Celery queue. *)
Record app := App {
  db : gmap string Redis.entry;
  queue : list tasks.args;
}.

Definition as_str (v : pyval) : option string :=
  match v with PStr s => Some s | _ => None end.

(** [v == s] for a string literal [s] *)
Definition is_str (s : string) (v : pyval) : bool :=
  match v with PStr x => String.eqb x s | _ => false end.

Definition as_float (v : pyval) : option Q :=
  match v with PFloat q => Some q | _ => None end.

Section routes.
Context `{Runtime}.
Variable settings : Settings.

Definition job_data_of (job_id : string) (request : ProcessVideoRequest)
    : gmap string pyval :=
  {[ "job_id" := PStr job_id;
     "status" := PStr "pending";
     "progress" := PFloat 0.0;
     "message" := PStr "Job queued for processing";
     "video_url" := PStr (video_url request);
     "customer_name" := PStr (customer_name request);
     "intro_clip" := from_option PStr PNone (intro_clip request);
     "outro_clip" := from_option PStr PNone (outro_clip request);
     "transition_style" := PStr (transition_style request);
     "overlay_settings" := PDict (default VideoProcessor.empty_overlay (overlay request));
     "encoding_preset" := from_option PStr PNone (encoding_preset request) ]}.

(** [x or "standard"] *)
Definition or_standard (o : option string) : string :=
  if Py.truthy_opt o then default "" o else "standard".

(** The [try] block of [process_video]; [job_id] is the [uuid4] drawn
    and [now] the clock reading. *)
Definition process_video_try (now : Z) (job_id : string)
    (request : ProcessVideoRequest) (st : app) : app * (exn + ProcessVideoResponse) :=
  if negb (Py.truthy_str (video_url request)) then
    (st, inl (HTTPException 400 "video_url is required"))
  else if negb (Py.truthy_str (customer_name request))
          || (String.length (Py.strip (customer_name request)) =? 0)%nat then
    (st, inl (HTTPException 400 "customer_name is required"))
  else
    let job_data := job_data_of job_id request in
    let '(_, db1) := storage.store_job_info settings now job_id job_data (db st) in
    let task := tasks.Args job_id (video_url request) (customer_name request)
                  (intro_clip request) (outro_clip request)
                  (transition_style request)
                  (Some (default VideoProcessor.empty_overlay (overlay request)))
                  (or_standard (encoding_preset request)) in
    (App db1 (queue st ++ [task]),
     inr {| pv_job_id := job_id; pv_status := "pending";
            pv_message := "Video processing job started successfully" |}).

(** [POST /process]. The handler has a single [except Exception]
    clause, so the [HTTPException]s raised in its [try] block reach the
    client as a 500 whose detail is their [str]. *)
Definition process_video (now : Z) (job_id : string)
    (request : ProcessVideoRequest) (st : app) : app * (exn + ProcessVideoResponse) :=
  let '(st1, r) := process_video_try now job_id request st in
  (st1, wrap_all exn_str r).

(** [JobStatusResponse] built from the keys of [job_data]: the five
    required fields must be there; anything else raises a validation
    error. *)
Definition status_response (job_data : gmap string pyval)
    : exn + JobStatusResponse :=
  match job_data !! "job_id" ≫= as_str, job_data !! "status" ≫= as_str,
        job_data !! "progress" ≫= as_float, job_data !! "message" ≫= as_str,
        job_data !! "created_at" ≫= as_str with
  | Some j, Some s, Some p, Some m, Some c =>
      inr {| job_id := j; status := s; progress := p; message := m;
             result_url := job_data !! "result_url" ≫= as_str;
             error := job_data !! "error" ≫= as_str;
             created_at := c;
             completed_at := job_data !! "completed_at" ≫= as_str |}
  | _, _, _, _, _ => inl (PyError "ValidationError" "validation error for JobStatusResponse")
  end.

(** The body of the handler [get_job_status], for a given meaning of
    the name [get_job_status] inside it. *)
Definition get_job_status_body (get_job_status : string → exn + fetched)
    (job_id : string) : exn + JobStatusResponse :=
  reraise_http exn_str
    match get_job_status job_id with
    | inl e => inl e
    | inr NoneValue => inl (HTTPException 404 "Job not found")
    | inr (Dict job_data) =>
        if decide (job_data = ∅) then inl (HTTPException 404 "Job not found")
        else status_response job_data
    | inr (Model _) =>
        inl (PyError "TypeError" "argument after ** must be a mapping")
    end.

(** [GET /status/{job_id}]. The module imports [get_job_status] from the
    storage layer and then defines this handler under the same name, so
    inside the handler the name is the handler: it awaits itself, one
    frame deeper each time ([stack] frames are left), until the
    interpreter raises [RecursionError]. *)
Fixpoint get_job_status (stack : nat) (job_id : string)
    : exn + JobStatusResponse :=
  match stack with
  | O => inl (PyError "RecursionError" "maximum recursion depth exceeded")
  | S k =>
      get_job_status_body
        (λ j, match get_job_status k j with
              | inl e => inl e
              | inr r => inr (Model r)
              end) job_id
  end.

Record JobResult := {
  jr_job_id : string;
  jr_status : string;
  download_url : option string;
  jr_completed_at : option string;
}.

(** The body of [get_job_result], for a given meaning of the name
    [get_job_status]. *)
Definition get_job_result_body (get_job_status : string → exn + fetched)
    (job_id : string) : exn + JobResult :=
  reraise_http exn_str
    match get_job_status job_id with
    | inl e => inl e
    | inr NoneValue => inl (HTTPException 404 "Job not found")
    | inr (Model _) =>
        inl (PyError "TypeError" "'JobStatusResponse' object is not subscriptable")
    | inr (Dict job_data) =>
        if decide (job_data = ∅) then inl (HTTPException 404 "Job not found")
        else
          match job_data !! "status" with
          | None => inl (PyError "KeyError" "'status'")
          | Some st =>
              if is_str "completed" st then
                inr {| jr_job_id := job_id;
                       jr_status := py_str st;
                       download_url := job_data !! "result_url" ≫= as_str;
                       jr_completed_at := job_data !! "completed_at" ≫= as_str |}
              else
                inl (HTTPException 400
                       ("Job is not completed. Current status: " +:+ py_str st))
          end
    end.

(** [GET /result/{job_id}]: the name [get_job_status] it awaits is the
    handler above. *)
Definition get_job_result (stack : nat) (job_id : string) : exn + JobResult :=
  get_job_result_body
    (λ j, match get_job_status stack j with
          | inl e => inl e
          | inr r => inr (Model r)
          end) job_id.

(** The two handlers as they would run with the storage function under
    the name [get_job_status]. *)
Definition storage_lookup (now : Z) (db : gmap string Redis.entry)
    (job_id : string) : exn + fetched :=
  inr (of_storage (storage.get_job_status now job_id db)).

End routes.
End routes.

(* ===================================================================== *)
(** * app/core/storage.py, class FileManager                              *)
(* ===================================================================== *)

Module FileManager.
Section FileManager.
Variable settings : Settings.
(** The two settings fields the upload code reads besides [assets_path]. *)
Variable max_filename_length : Z.
Variable upload_path : string.
(** [str.isalnum] beyond ASCII, see [Py.isalnum]. *)
Variable isalnum_high : ascii → bool.
(** Whether creating and writing the file at a path works. *)
Variable write_ok : string → bool.

(** [c.isalnum() or c in "._-"] *)
Definition safe_char (c : ascii) : bool :=
  Py.isalnum isalnum_high c || Py.contains c "._-".

(** The local [safe_filename] of [save_uploaded_file]. *)
Definition safe_filename (filename : string) : string :=
  let safe := Py.keep_chars safe_char filename in
  if (max_filename_length <? Z.of_nat (String.length safe))
  then Py.slice_to max_filename_length safe
  else safe.

Definition save_dir (subfolder : string) : string :=
  if Py.truthy_str subfolder
  then Py.join (assets_path settings) [subfolder]
  else upload_path.

(** [save_uploaded_file(file_data, filename, subfolder)]: the path it
    returns, or the exception of the failed write, which it raises
    again. *)
Definition save_uploaded_file (filename subfolder : string) : exn + string :=
  let file_path := Py.join (save_dir subfolder) [safe_filename filename] in
  if write_ok file_path then inr file_path
  else inl (PyError "OSError" file_path).

End FileManager.
End FileManager.

(* ===================================================================== *)
(** * app/web/routes.py                                                   *)
(* ===================================================================== *)

Module web.

(** [GET /api/job-status/{job_id}]: this module imports the storage
    function and defines no handler of that name. *)
Definition get_job_status_web `{Runtime} (now : Z) (job_id : string)
    (db : gmap string Redis.entry) : exn + gmap string pyval :=
  match storage.get_job_status now job_id db with
  | None => inl (HTTPException 404 "Job not found")
  | Some job_data => inr job_data
  end.

(** The JSON object [POST /upload-asset] answers with. *)
Record UploadResponse := {
  success : bool;
  message : string;
  filename : string;
}.

Section upload.
Variable settings : Settings.
Variable max_file_size : Z.
Variable max_filename_length : Z.
Variable upload_path : string.
Variable isalnum_high : ascii → bool.
Variable write_ok : string → bool.

(** [POST /upload-asset]; [size] is [len(file_data)]. *)
Definition upload_asset (asset_type file_filename : string) (size : Z)
    : exn + UploadResponse :=
  reraise_http (λ _, "Upload failed")
    (if negb (bool_decide (asset_type ∈ ["intros"; "outros"; "logos"])) then
       inl (HTTPException 400 "Invalid asset type")
     else if negb (Py.truthy_str file_filename) then
       inl (HTTPException 400 "No file selected")
     else if max_file_size <? size then
       inl (HTTPException 400 "File too large")
     else
       match FileManager.save_uploaded_file settings max_filename_length
               upload_path isalnum_high write_ok file_filename asset_type with
       | inl e => inl e
       | inr _ =>
           inr {| success := true;
                  message := Py.capitalize asset_type +:+ " uploaded successfully";
                  filename := file_filename |}
       end).

End upload.

End web.

(* ===================================================================== *)
(** * app/api/download.py                                                 *)
(* ===================================================================== *)

Module download.

(** The part of a [FileResponse] that says which file is served. *)
Record FileResponse := {
  path : string;
  filename : string;
}.

Section download.
Variable settings : Settings.
Variable w : world.

(** [GET /download/{filename}] *)
Definition download_file (filename : string) : exn + FileResponse :=
  reraise_http (λ _, "Download failed")
    (let safe_filename := Py.basename filename in
     let file_path := Py.join (local_storage_path settings) [safe_filename] in
     if negb (path_exists w file_path) then inl (HTTPException 404 "File not found")
     else if negb (path_isfile w file_path) then inl (HTTPException 404 "File not found")
     else inr {| path := file_path; filename := safe_filename |}).

Definition asset_paths : gmap string string :=
  {[ "intros" := get_intro_path settings;
     "outros" := get_outro_path settings;
     "logos" := get_logos_path settings ]}.

(** [GET /asset/{asset_type}/{filename}] *)
Definition download_asset (asset_type filename : string) : exn + FileResponse :=
  reraise_http (λ _, "Asset download failed")
    (if negb (bool_decide (asset_type ∈ ["intros"; "outros"; "logos"])) then
       inl (HTTPException 400 "Invalid asset type")
     else
       let safe_filename := Py.basename filename in
       match asset_paths !! asset_type with
       | None => inl (PyError "KeyError" asset_type)
       | Some asset_dir =>
           let file_path := Py.join asset_dir [safe_filename] in
           if negb (path_exists w file_path) then
             inl (HTTPException 404 "Asset not found")
           else inr {| path := file_path; filename := safe_filename |}
       end).

End download.
End download.

(* ===================================================================== *)
(** * A sample runtime and inputs for the closed examples                 *)
(* ===================================================================== *)

(** Clock readings print as [T] and the seconds.  The closed examples
    only meet the one-decimal floats 0.0, 0.1, ... 1.0, which Python
    prints as integer part, point and tenths, and reads back: [tenths]
    prints that way, and [decimal] reads [digits] or [digits.digits]. *)
Definition tenths (q : Q) : string :=
  let t := (Qnum q * 10) `div` Z.pos (Qden q) in
  pretty (t `div` 10) +:+ "." +:+ pretty (t `mod` 10).

Definition digit (c : ascii) : option Z :=
  let n := Z.of_nat (nat_of_ascii c) in
  if (48 <=? n) && (n <=? 57) then Some (n - 48) else None.

(** The accumulator is the numerator so far and, once the point is
    passed, the power of ten below it. *)
Fixpoint decimal_digits (num : Z) (den : option positive) (seen : bool)
    (s : string) : option Q :=
  match s with
  | EmptyString =>
      if seen then Some (Qmake num (default 1%positive den)) else None
  | String c r =>
      if Ascii.eqb c "."%char then
        match den with
        | None => decimal_digits num (Some 1%positive) seen r
        | Some _ => None
        end
      else
        match digit c with
        | Some d =>
            decimal_digits (num * 10 + d) ((λ p, (p * 10)%positive) <$> den) true r
        | None => None
        end
  end.

Definition decimal (s : string) : option Q := decimal_digits 0 None false s.

(** The runtime of the closed examples. *)
Definition strict_runtime : Runtime := {|
  isoformat := λ t, "T" +:+ pretty t;
  float_repr := tenths;
  float_of_str := decimal;
  dict_str := λ _, "{}";
  http_exception_str := λ c d, pretty c +:+ ": " +:+ d;
|}.

(** A value the Redis client accepts. *)
Definition scalar (v : pyval) : bool :=
  match v with PStr _ | PFloat _ => true | _ => false end.

(* ===================================================================== *)
(** * Vocabulary of the statements                                        *)
(* ===================================================================== *)

(** The float survives being stored as a string and read back. *)
Definition roundtrips `{Runtime} (p : Q) : Prop :=
  float_of_str (float_repr p) = Some p.

(** The pipeline run that an execution of the task with arguments [a]
    makes in world [w]. *)
Abbreviation pipeline_of settings w a :=
  (VideoProcessor.process_video settings w (tasks.job_id a) (tasks.video_url a)
     (tasks.customer_name a) (tasks.intro_clip a) (tasks.outro_clip a)
     (tasks.transition_style a)
     (Some (default VideoProcessor.empty_overlay (tasks.overlay a)))
     (tasks.encoding_preset a) true).

(** The store after the worker awaited the calls [cs]. *)
Definition final_db `{Runtime} (job : string) (clock : nat → Z) (i : nat)
    (cs : list tasks.call) (db : gmap string Redis.entry)
    : gmap string Redis.entry :=
  default db (snd <$> last (worker.replay job clock i cs db)).

(** The task that [POST /process] queues for a request. *)
Definition task_of (job_id : string) (request : routes.ProcessVideoRequest)
    : tasks.args :=
  tasks.Args job_id (routes.video_url request) (routes.customer_name request)
    (routes.intro_clip request) (routes.outro_clip request)
    (routes.transition_style request)
    (Some (default VideoProcessor.empty_overlay (routes.overlay request)))
    (routes.or_standard (routes.encoding_preset request)).

(** The overlay asks for a watermark with a value that is no string. *)
Definition watermark_error (ov : option overlay_settings) : option string :=
  match watermark_path (default VideoProcessor.empty_overlay ov) with
  | Some (NotText true join_error) => Some join_error
  | _ => None
  end.

(** ** Path names
    The names a path is made of, and the directory entries it walks
    through from the root: empty names and [.] stay in place, [..] goes
    up. *)
Fixpoint components_from (cur : string) (p : string) : list string :=
  match p with
  | EmptyString => [cur]
  | String c r =>
      if Ascii.eqb c Py.sep then cur :: components_from "" r
      else components_from (cur +:+ String c "") r
  end.

Definition components (p : string) : list string := components_from "" p.

Fixpoint walk (up : list string) (names : list string) : list string :=
  match names with
  | [] => rev up
  | n :: rest =>
      if String.eqb n "" || String.eqb n "." then walk up rest
      else if String.eqb n ".." then walk (tail up) rest
      else walk (n :: up) rest
  end.

Definition denotes (p : string) : list string := walk [] (components p).

(** [p] names the directory [dir] or something below it. *)
Definition within (dir p : string) : Prop := denotes dir `prefix_of` denotes p.

(** ** Sample worlds and task arguments *)

(** [.], [..] and the empty name are directories, not files. *)
Definition plain_name (p : string) : bool :=
  negb (String.eqb (Py.basename p) ".." || String.eqb (Py.basename p) "."
        || String.eqb (Py.basename p) "").

(** Everything works and every path is there. *)
Definition fair_world : world :=
  World (λ _ _, true) (λ _, true) plain_name (λ _ _, true) (λ _, true) (λ _, None).

(** The source URL cannot be fetched. *)
Definition offline_world : world :=
  World (λ _ _, false) (λ _, true) (λ _, true) (λ _ _, true) (λ _, true) (λ _, None).

(** Everything works, but no asset file is on disk. *)
Definition bare_world : world :=
  World (λ _ _, true) (λ _, false) (λ _, false) (λ _ _, true) (λ _, true) (λ _, None).

Definition sample_args : tasks.args :=
  tasks.Args "j1" "http://example.org/v.mp4" "ACME" (Some "intro.mp4")
             (Some "outro.mp4") "fade" (Some (Overlay false None)) "standard".

Definition sample_request : routes.ProcessVideoRequest := {|
  routes.video_url := "http://example.org/v.mp4";
  routes.customer_name := "ACME";
  routes.intro_clip := Some "intro.mp4";
  routes.outro_clip := Some "outro.mp4";
  routes.transition_style := "fade";
  routes.overlay := None;
  routes.encoding_preset := Some "standard";
|}.

(* ===================================================================== *)
(** * Facts about the Redis commands                                      *)
(* ===================================================================== *)

Section redis_facts.
Implicit Types (db : gmap string Redis.entry) (m : gmap string string).

Lemma hgetall_hset_raw now key m db :
  Redis.hgetall now key (Redis.hset_raw now key m db)
  = m ∪ Redis.hgetall now key db.
Proof.
  unfold Redis.hgetall, Redis.hset_raw.
  destruct (db !! key) as [e|] eqn:He.
  - destruct (Redis.live now e) eqn:Hl; rewrite lookup_insert_eq.
    + unfold Redis.live in *. simpl. by rewrite Hl.
    + simpl. by rewrite (right_id_L ∅ (∪)).
  - rewrite lookup_insert_eq. simpl. by rewrite (right_id_L ∅ (∪)).
Qed.

Lemma lookup_hset_raw_ne now key key' m db :
  key ≠ key' → Redis.hset_raw now key m db !! key' = db !! key'.
Proof.
  intros Hne. unfold Redis.hset_raw.
  destruct (db !! key) as [e|]; [destruct (Redis.live now e)|];
    by rewrite lookup_insert_ne.
Qed.

(** [HSET] on a key that is there keeps its deadline. *)
Lemma hset_raw_keeps_deadline now key m db e :
  db !! key = Some e → Redis.live now e = true →
  Redis.hset_raw now key m db !! key
  = Some (Redis.Entry (m ∪ Redis.fields e) (Redis.expire_at e)).
Proof.
  intros He Hl. unfold Redis.hset_raw. rewrite He, Hl.
  apply lookup_insert_eq.
Qed.

End redis_facts.

Section storage_facts.
Context `{Runtime}.
Implicit Types (db : gmap string Redis.entry) (updates : gmap string pyval).

Lemma scalar_encode v : scalar v = true → Redis.encode v = Some (py_str v).
Proof. by destruct v. Qed.

Lemma stamped_lookup now updates f :
  storage.stamped now updates !! f
  = if decide (f = "updated_at") then Some (PStr (isoformat now))
    else if decide (f = "progress") then (λ p, PStr (py_str p)) <$> updates !! f
    else updates !! f.
Proof.
  unfold storage.stamped.
  destruct (decide (f = "updated_at")) as [->|Hu].
  { by rewrite lookup_insert_eq. }
  rewrite lookup_insert_ne by done.
  destruct (decide (f = "progress")) as [->|Hp].
  - destruct (updates !! "progress") as [p|] eqn:Hpr; simpl.
    + by rewrite lookup_insert_eq.
    + by rewrite Hpr.
  - destruct (updates !! "progress"); [by rewrite lookup_insert_ne|done].
Qed.

Lemma stamped_nonempty now updates : storage.stamped now updates ≠ ∅.
Proof. unfold storage.stamped. apply insert_non_empty. Qed.

Lemma stamped_encodable now updates :
  map_Forall (λ _ v, scalar v = true) updates →
  Redis.encodable (storage.stamped now updates).
Proof.
  intros Hs f v. rewrite stamped_lookup.
  repeat case_decide; intros Hv.
  - by inversion Hv.
  - destruct (updates !! f); inversion Hv. by eexists.
  - apply Hs in Hv. rewrite (scalar_encode _ Hv). by eexists.
Qed.

(** The record right after a successful update: the stamped fields over
    what was there. *)
Lemma update_job_status_hgetall now job updates db :
  Redis.encodable (storage.stamped now updates) →
  storage.update_job_status now job updates db
  = (true, Redis.hset_raw now (storage.job_key job)
             (omap Redis.encode (storage.stamped now updates)) db).
Proof.
  intros He. unfold storage.update_job_status, Redis.hset.
  destruct (decide (storage.stamped now updates = ∅)) as [Hem|_].
  { by apply stamped_nonempty in Hem. }
  by rewrite decide_True.
Qed.

End storage_facts.

(* ===================================================================== *)
(** * The Job Store update                                                *)
(* ===================================================================== *)

Section update_theorems.
Context `{Runtime}.
Implicit Types (db : gmap string Redis.entry) (updates : gmap string pyval).

(** C4 (as amended). [update_job_status] with string and float values
    answers [True]; in the record it leaves, every field that was not
    supplied keeps its value, every supplied field holds the string of
    the supplied value, [updated_at] is the clock reading, and the
    deadline of a record that was there is kept.  For a job id without a
    record the answer is [True] as well, and the record afterwards is
    exactly the supplied fields and [updated_at], without a deadline. *)
Theorem update_job_status_merges now job updates db :
  map_Forall (λ _ v, scalar v = true) updates →
  let key := storage.job_key job in
  let before := Redis.hgetall now key db in
  let ok := (storage.update_job_status now job updates db).1 in
  let db' := (storage.update_job_status now job updates db).2 in
  let after := Redis.hgetall now key db' in
  ok = true
  ∧ (∀ f, updates !! f = None → f ≠ "updated_at" → after !! f = before !! f)
  ∧ (∀ f v, updates !! f = Some v → f ≠ "updated_at" → after !! f = Some (py_str v))
  ∧ after !! "updated_at" = Some (isoformat now)
  ∧ (∀ e, db !! key = Some e → Redis.live now e = true →
       Redis.expire_at <$> db' !! key = Some (Redis.expire_at e))
  ∧ (db !! key = None →
       db' !! key = Some (Redis.Entry (omap Redis.encode (storage.stamped now updates)) None)
       ∧ dom after = dom updates ∪ {["updated_at"]}).
Proof.
  intros Hs key before ok db' after.
  pose proof (stamped_encodable now updates Hs) as Henc.
  subst ok db' after before.
  rewrite (update_job_status_hgetall now job updates db Henc). simpl.
  rewrite hgetall_hset_raw. fold key.
  split; [done|]. split; [|split; [|split; [|split]]].
  - intros f Hf Hu. rewrite lookup_union, lookup_omap, stamped_lookup.
    rewrite decide_False by done. rewrite Hf.
    case_decide; simpl; by rewrite (left_id_L None _).
  - intros f v Hf Hu. rewrite lookup_union, lookup_omap, stamped_lookup.
    rewrite decide_False by done. rewrite Hf.
    apply Hs in Hf as Hsc. case_decide; simpl.
    + by destruct (Redis.hgetall now key db !! f).
    + rewrite (scalar_encode v Hsc). by destruct (Redis.hgetall now key db !! f).
  - rewrite lookup_union, lookup_omap, stamped_lookup. simpl.
    by destruct (Redis.hgetall now key db !! "updated_at").
  - intros e He Hl. by rewrite (hset_raw_keeps_deadline now key _ db e He Hl).
  - intros Hnone. unfold Redis.hset_raw, Redis.hgetall. rewrite Hnone.
    split; [apply lookup_insert_eq|].
    rewrite (right_id_L ∅ (∪)). apply set_eq. intros f.
    rewrite elem_of_dom, lookup_omap, stamped_lookup.
    rewrite elem_of_union, elem_of_singleton, elem_of_dom.
    repeat case_decide; subst.
    + split; [by right|by eexists].
    + destruct (updates !! "progress") as [p|]; simpl.
      * split; [intros _; left; by eexists | by eexists].
      * split; [by intros [? ?] | intros [[? ?]|?]; done].
    + destruct (updates !! f) as [v|] eqn:Hv; simpl.
      * apply Hs in Hv as Hsc. rewrite (scalar_encode v Hsc).
        split; [intros _; left; by eexists | by eexists].
      * split; [by intros [? ?] | intros [[? ?]|?]; done].
Qed.

End update_theorems.

(** An update of a live record: the job's input fields survive and the
    time to live set at creation is kept. *)
Lemma update_job_status_merges_witness :
  map_Forall (λ _ v, scalar v = true)
    ({[ "status" := PStr "processing"; "progress" := PFloat 0.3 ]} : gmap string pyval)
  ∧ Redis.hgetall 10 "job:j1"
      (storage.update_job_status (H := strict_runtime) 10 "j1"
         {[ "status" := PStr "processing"; "progress" := PFloat 0.3 ]}
         {[ "job:j1" := Redis.Entry {[ "status" := "pending"; "video_url" := "http://v" ]} (Some 86400) ]}).2
      !! "updated_at" = Some "T10".
Proof.
  assert (Hs : map_Forall (λ _ v, scalar v = true)
    ({[ "status" := PStr "processing"; "progress" := PFloat 0.3 ]} : gmap string pyval)).
  { apply map_Forall_insert_2; [reflexivity|].
    apply map_Forall_insert_2; [reflexivity|]. apply map_Forall_empty. }
  split; [exact Hs|].
  exact (proj1 (proj2 (proj2 (proj2
    (update_job_status_merges (H := strict_runtime) 10 "j1"
       {[ "status" := PStr "processing"; "progress" := PFloat 0.3 ]}
       {[ "job:j1" := Redis.Entry {[ "status" := "pending"; "video_url" := "http://v" ]} (Some 86400) ]}
       Hs))))).
Defined.

(** C4 as stated fails for an unknown job id: the update does not report
    a missing job, it answers [True] and the job can be read afterwards. *)
Lemma update_unknown_job_creates_record :
  let r := storage.update_job_status (H := strict_runtime) 100 "no-such-job"
             {[ "status" := PStr "processing" ]} ∅ in
  r.1 = true
  ∧ storage.get_job_status (H := strict_runtime) 99 "no-such-job" ∅ = None
  ∧ storage.get_job_status (H := strict_runtime) 100 "no-such-job" r.2
    = Some {[ "status" := PStr "processing"; "updated_at" := PStr "T100" ]}.
Proof. intros r. repeat apply conj; vm_compute; reflexivity. Qed.

(* ===================================================================== *)
(** * The final encode                                                    *)
(* ===================================================================== *)

Section encode_theorems.
Variable w : world.

Lemma presets_other preset :
  preset ∉ ["standard"; "high"; "mobile"; "web"] →
  VideoProcessor.presets !! preset = None.
Proof.
  intros Hn. unfold VideoProcessor.presets.
  repeat (rewrite lookup_insert_ne; [|intros <-; apply Hn; set_solver]).
  apply lookup_singleton_ne. intros <-; apply Hn; set_solver.
Qed.

(** C10. [encode_video] runs ffmpeg on [-y -i input], then the fixed
    parameter list of the preset, then the output path, for each of
    standard, high, mobile and web; with any other preset string it
    runs exactly the command of the standard preset. *)
Theorem encode_video_uses_preset_table (input_path output_path : string) :
  (∀ preset, VideoProcessor.encode_video w input_path output_path preset
     = ffmpeg_run w (VideoProcessor.encode_cmd input_path output_path preset))
  ∧ VideoProcessor.encode_cmd input_path output_path "standard"
    = ["ffmpeg"; "-y"; "-i"; input_path;
       "-c:v"; "libx264"; "-preset"; "medium"; "-crf"; "23";
       "-c:a"; "aac"; "-b:a"; "128k"; output_path]
  ∧ VideoProcessor.encode_cmd input_path output_path "high"
    = ["ffmpeg"; "-y"; "-i"; input_path;
       "-c:v"; "libx264"; "-preset"; "slow"; "-crf"; "18";
       "-c:a"; "aac"; "-b:a"; "256k"; output_path]
  ∧ VideoProcessor.encode_cmd input_path output_path "mobile"
    = ["ffmpeg"; "-y"; "-i"; input_path;
       "-c:v"; "libx264"; "-preset"; "fast"; "-crf"; "28"; "-s"; "1280x720";
       "-c:a"; "aac"; "-b:a"; "96k"; output_path]
  ∧ VideoProcessor.encode_cmd input_path output_path "web"
    = ["ffmpeg"; "-y"; "-i"; input_path;
       "-c:v"; "libx264"; "-preset"; "medium"; "-crf"; "25"; "-s"; "1920x1080";
       "-c:a"; "aac"; "-b:a"; "128k"; output_path]
  ∧ (∀ preset, preset ∉ ["standard"; "high"; "mobile"; "web"] →
       VideoProcessor.encode_cmd input_path output_path preset
       = VideoProcessor.encode_cmd input_path output_path "standard"
       ∧ VideoProcessor.encode_video w input_path output_path preset
         = VideoProcessor.encode_video w input_path output_path "standard").
Proof.
  split; [done|]. repeat split; try reflexivity.
  - unfold VideoProcessor.encode_cmd. by rewrite (presets_other preset).
  - unfold VideoProcessor.encode_video, VideoProcessor.encode_cmd.
    by rewrite (presets_other preset).
Qed.

End encode_theorems.

(** An unknown preset name gets the standard command line. *)
Lemma encode_video_uses_preset_table_witness :
  ("ultra" ∉ ["standard"; "high"; "mobile"; "web"])
  ∧ VideoProcessor.encode_cmd "in.mp4" "out.mp4" "ultra"
    = VideoProcessor.encode_cmd "in.mp4" "out.mp4" "standard".
Proof.
  assert (Hn : "ultra" ∉ ["standard"; "high"; "mobile"; "web"]).
  { intros Hin. repeat (apply elem_of_cons in Hin as [Hin|Hin]; [discriminate Hin|]).
    by apply elem_of_nil in Hin. }
  split; [exact Hn|].
  exact (proj1 (proj2 (proj2 (proj2 (proj2 (proj2
    (encode_video_uses_preset_table (World (λ _ _, true) (λ _, true) (λ _, true)
       (λ _ _, true) (λ _, true) (λ _, None)) "in.mp4" "out.mp4"))))) "ultra" Hn)).
Defined.

(* ===================================================================== *)
(** * File and asset retrieval                                            *)
(* ===================================================================== *)

Section path_facts.

Lemma rfind_lower c s : -1 ≤ Py.rfind c s.
Proof.
  induction s as [|a r IH]; simpl; [lia|].
  destruct (0 <=? Py.rfind c r) eqn:Hk; [apply Z.leb_le in Hk; lia|].
  destruct (Ascii.eqb a c); lia.
Qed.

Lemma rfind_absent c s : Py.rfind c s < 0 → Py.contains c s = false.
Proof.
  induction s as [|a r IH]; simpl; [done|].
  destruct (0 <=? Py.rfind c r) eqn:Hk.
  - apply Z.leb_le in Hk. lia.
  - apply Z.leb_gt in Hk. destruct (Ascii.eqb a c); [lia|].
    intros _. simpl. by apply IH.
Qed.

(** The base name holds no separator. *)
Lemma basename_no_sep p : Py.contains Py.sep (Py.basename p) = false.
Proof.
  unfold Py.basename. induction p as [|a r IH]; simpl; [done|].
  pose proof (rfind_lower Py.sep r) as Hlow.
  destruct (0 <=? Py.rfind Py.sep r) eqn:Hk.
  - apply Z.leb_le in Hk.
    replace (Z.to_nat (Py.rfind Py.sep r + 1 + 1))
      with (S (Z.to_nat (Py.rfind Py.sep r + 1))) by lia.
    simpl. exact IH.
  - apply Z.leb_gt in Hk.
    destruct (Ascii.eqb a Py.sep) eqn:Ha; simpl.
    + by apply rfind_absent.
    + rewrite Ha. simpl. by apply rfind_absent.
Qed.

End path_facts.

Section download_facts.
Variable settings : Settings.
Variable w : world.

(** Any category name other than the three is answered with 400. *)
Lemma download_asset_rejects_other_types asset_type filename :
  asset_type ∉ ["intros"; "outros"; "logos"] →
  download.download_asset settings w asset_type filename
  = inl (HTTPException 400 "Invalid asset type").
Proof.
  intros Hn. unfold download.download_asset.
  by rewrite bool_decide_eq_false_2.
Qed.

(** For the three categories the path looked up is the category
    directory joined with the base name, which holds no separator. *)
Lemma download_asset_looks_up_base_name asset_type filename r :
  download.download_asset settings w asset_type filename = inr r →
  ∃ asset_dir, download.asset_paths settings !! asset_type = Some asset_dir
    ∧ download.filename r = Py.basename filename
    ∧ Py.contains Py.sep (download.filename r) = false
    ∧ download.path r = Py.join_step asset_dir (Py.basename filename).
Proof.
  unfold download.download_asset.
  destruct (bool_decide _); simpl; [|done].
  destruct (download.asset_paths settings !! asset_type) as [d|]; simpl; [|done].
  destruct (path_exists w _); simpl; [|done].
  intros [= <-]. exists d. simpl. by rewrite basename_no_sep.
Qed.

End download_facts.

(** C8, at the failing input: the base name of [..] is [..], so asset
    retrieval for category intros looks up and serves the path
    [/app/assets/intros/..], which is the assets directory itself and not
    a path inside the intros directory.  [download_file] meets the same
    name with its [isfile] test and answers 404. *)
Theorem download_asset_reaches_parent_directory :
  Py.basename ".." = ".."
  ∧ download.download_asset default_settings fair_world "intros" ".."
    = inr {| download.path := "/app/assets/intros/.."; download.filename := ".." |}
  ∧ denotes (get_intro_path default_settings) = ["app"; "assets"; "intros"]
  ∧ denotes "/app/assets/intros/.." = ["app"; "assets"]
  ∧ ¬ within (get_intro_path default_settings) "/app/assets/intros/.."
  ∧ download.download_file default_settings fair_world ".."
    = inl (HTTPException 404 "File not found").
Proof.
  repeat split; try (vm_compute; reflexivity).
  intros [k Hk]. vm_compute in Hk. discriminate Hk.
Qed.

(* ===================================================================== *)
(** * The API handlers                                                    *)
(* ===================================================================== *)

Section route_theorems.
Context `{Runtime}.
Variable settings : Settings.

Lemma lstrip_all_space s : Py.all_space s = true → Py.lstrip s = "".
Proof.
  induction s as [|c r IH]; simpl; [done|].
  intros [Hc Hr]%andb_true_iff. rewrite Hc. by apply IH.
Qed.

Lemma strip_all_space s : Py.all_space s = true → Py.strip s = "".
Proof. intros Hs. unfold Py.strip. by rewrite (lstrip_all_space s Hs). Qed.

(** What the storage function returns is never an empty dict. *)
Lemma get_job_status_nonempty now job db v :
  storage.get_job_status now job db = Some v → v ≠ ∅.
Proof.
  unfold storage.get_job_status.
  destruct (decide (Redis.hgetall now (storage.job_key job) db = ∅)) as [|Hne]; [done|].
  intros [= <-].
  destruct (Redis.hgetall now (storage.job_key job) db !! "progress").
  - apply insert_non_empty.
  - by intros ?%fmap_empty_inv.
Qed.

(** The status handler never returns: with at least one frame left it
    raises the 500 made from the [RecursionError]. *)
Lemma get_job_status_handler_500 stack job_id :
  routes.get_job_status (S stack) job_id
  = inl (HTTPException 500 "maximum recursion depth exceeded").
Proof.
  induction stack as [|k IH].
  - reflexivity.
  - change (routes.get_job_status (S (S k)) job_id)
      with (routes.get_job_status_body
              (λ j, match routes.get_job_status (S k) j with
                    | inl e => inl e
                    | inr r => inr (routes.Model r)
                    end) job_id).
    unfold routes.get_job_status_body. by rewrite IH.
Qed.

(** The result handler as it would run over the storage function: 404
    for a job that is not stored, the stored result reference for a
    completed job, and a 400 naming the status otherwise. *)
Lemma get_job_result_body_over_storage now db job_id :
  routes.get_job_result_body (routes.storage_lookup now db) job_id
  = match storage.get_job_status now job_id db with
    | None => inl (HTTPException 404 "Job not found")
    | Some job_data =>
        match job_data !! "status" with
        | None => inl (HTTPException 500 "'status'")
        | Some st =>
            if routes.is_str "completed" st then
              inr {| routes.jr_job_id := job_id;
                     routes.jr_status := py_str st;
                     routes.download_url := job_data !! "result_url" ≫= routes.as_str;
                     routes.jr_completed_at := job_data !! "completed_at" ≫= routes.as_str |}
            else inl (HTTPException 400
                        ("Job is not completed. Current status: " +:+ py_str st))
        end
    end.
Proof.
  unfold routes.get_job_result_body, routes.storage_lookup.
  destruct (storage.get_job_status now job_id db) as [v|] eqn:Hv; simpl; [|done].
  apply get_job_status_nonempty in Hv. rewrite decide_False by done.
  destruct (v !! "status") as [st|]; simpl; [|done].
  by destruct (routes.is_str "completed" st).
Qed.

(** C5, what the code does: whatever the store holds for the job, the
    result query ends in a server error.  The name [get_job_status] it
    awaits is the status handler, which only ever raises a 500, and the
    result handler lets that through; the store is not consulted. *)
Theorem get_job_result_is_server_error stack job_id :
  ∃ detail, routes.get_job_result stack job_id = inl (HTTPException 500 detail).
Proof.
  unfold routes.get_job_result, routes.get_job_result_body.
  destruct stack as [|k].
  - simpl. by eexists.
  - rewrite get_job_status_handler_500. simpl. by eexists.
Qed.

(** C6, what the code does: a request whose customer label is empty or
    blank leaves the store and the queue as they were, but the answer is
    a 500 whose detail is the text of the 400 raised inside; the status
    query of the API for that id is a 500 too, while the status query
    of the web router answers 404. *)
Theorem process_video_blank_customer_name now job_id request st :
  routes.video_url request ≠ "" →
  Py.all_space (routes.customer_name request) = true →
  routes.process_video settings now job_id request st
  = (st, inl (HTTPException 500 (http_exception_str 400 "customer_name is required")))
  ∧ (∀ stack, ∃ detail,
       routes.get_job_status (S stack) job_id = inl (HTTPException 500 detail))
  ∧ (∀ later, storage.get_job_status later job_id (routes.db st) = None →
       web.get_job_status_web later job_id
         (routes.db (routes.process_video settings now job_id request st).1)
       = inl (HTTPException 404 "Job not found")).
Proof.
  intros Hurl Hblank.
  assert (Hpv : routes.process_video settings now job_id request st
    = (st, inl (HTTPException 500 (http_exception_str 400 "customer_name is required")))).
  { unfold routes.process_video, routes.process_video_try.
    destruct (routes.video_url request) as [|c r] eqn:Hu; [done|]. simpl.
    rewrite (strip_all_space _ Hblank). simpl.
    by rewrite orb_true_r. }
  split; [exact Hpv|]. split.
  - intros stack. eexists. apply get_job_status_handler_500.
  - intros later Hnone. rewrite Hpv. simpl.
    unfold web.get_job_status_web. by rewrite Hnone.
Qed.

End route_theorems.

(** A blank customer label on an empty store. *)
Lemma process_video_blank_customer_name_witness :
  "http://example.org/v.mp4" ≠ ""
  ∧ Py.all_space "   " = true
  ∧ routes.process_video (H := strict_runtime) default_settings 0 "j1"
      {| routes.video_url := "http://example.org/v.mp4";
         routes.customer_name := "   ";
         routes.intro_clip := None; routes.outro_clip := None;
         routes.transition_style := "fade"; routes.overlay := None;
         routes.encoding_preset := None |}
      (routes.App ∅ [])
    = (routes.App ∅ [], inl (HTTPException 500 "400: customer_name is required")).
Proof.
  split; [discriminate|]. split; [reflexivity|].
  exact (proj1 (process_video_blank_customer_name (H := strict_runtime)
    default_settings 0 "j1"
    {| routes.video_url := "http://example.org/v.mp4";
       routes.customer_name := "   ";
       routes.intro_clip := None; routes.outro_clip := None;
       routes.transition_style := "fade"; routes.overlay := None;
       routes.encoding_preset := None |}
    (routes.App ∅ []) ltac:(discriminate) eq_refl)).
Defined.

(** A stored pending job: over the storage function the body of the
    result handler answers 400 naming the status; the handler as the
    module defines it answers 500. *)
Example pending_job_result_query :
  let db := (storage.store_job_info (H := strict_runtime) default_settings 0 "j1"
               {[ "job_id" := PStr "j1"; "status" := PStr "pending";
                  "progress" := PFloat 0.0 ]} ∅).2 in
  routes.get_job_result_body (H := strict_runtime)
    (routes.storage_lookup (H := strict_runtime) 5 db) "j1"
  = inl (HTTPException 400 "Job is not completed. Current status: pending")
  ∧ match routes.get_job_result (H := strict_runtime) 1000 "j1" with
    | inl (HTTPException 500 _) => True
    | _ => False
    end.
Proof. intros db. split; vm_compute; reflexivity. Qed.

(* ===================================================================== *)
(** * Reads of the job store and the deadline                             *)
(* ===================================================================== *)

Section read_facts.
Context `{Runtime}.
Implicit Types (db : gmap string Redis.entry).

Lemma get_job_status_lookup now job db v f :
  storage.get_job_status now job db = Some v → f ≠ "progress" →
  v !! f = PStr <$> Redis.hgetall now (storage.job_key job) db !! f.
Proof.
  unfold storage.get_job_status. case_decide; [done|].
  intros [= <-] Hf.
  destruct (Redis.hgetall now (storage.job_key job) db !! "progress").
  - by rewrite lookup_insert_ne, lookup_fmap.
  - by rewrite lookup_fmap.
Qed.

Lemma get_job_status_progress now job db v :
  storage.get_job_status now job db = Some v →
  v !! "progress"
  = storage.read_progress <$> Redis.hgetall now (storage.job_key job) db !! "progress".
Proof.
  unfold storage.get_job_status. case_decide; [done|].
  intros [= <-].
  destruct (Redis.hgetall now (storage.job_key job) db !! "progress") eqn:Hp; simpl.
  - by rewrite lookup_insert_eq.
  - by rewrite lookup_fmap, Hp.
Qed.

Lemma get_job_status_is_Some now job db :
  Redis.hgetall now (storage.job_key job) db ≠ ∅ →
  is_Some (storage.get_job_status now job db).
Proof. intros Hne. unfold storage.get_job_status. rewrite decide_False by done. by eexists. Qed.

Lemma get_job_status_missing now job db :
  db !! storage.job_key job = None → storage.get_job_status now job db = None.
Proof.
  intros Hnone. unfold storage.get_job_status, Redis.hgetall. by rewrite Hnone.
Qed.

(** After [store_job_info] succeeded the key carries the deadline. *)
Lemma store_job_info_deadline settings now job job_data db db1 :
  storage.store_job_info settings now job job_data db = (true, db1) →
  ∃ e, db1 !! storage.job_key job = Some e
       ∧ Redis.expire_at e
         = Some (if 0 <? job_expiry_hours settings * 3600
                 then now + job_expiry_hours settings * 3600 else now - 1)
       ∧ Redis.fields e
         = omap Redis.encode (<["created_at" := PStr (isoformat now)]> job_data)
           ∪ Redis.hgetall now (storage.job_key job) db.
Proof.
  unfold storage.store_job_info, Redis.hset.
  repeat case_decide; try done. intros [= <-].
  unfold Redis.expire, Redis.hset_raw, Redis.hgetall.
  destruct (db !! storage.job_key job) as [e0|] eqn:He0;
    [destruct (Redis.live now e0) eqn:Hl0|];
    rewrite !lookup_insert_eq; unfold Redis.live; simpl; rewrite ?Hl0;
    unfold Redis.live in *; rewrite ?Hl0;
    rewrite ?lookup_insert_eq; eexists; (split; [reflexivity|]); simpl;
    by rewrite ?(right_id_L ∅ (∪)).
Qed.

Lemma expired_reads_nothing job db e d later :
  db !! storage.job_key job = Some e → Redis.expire_at e = Some d → d < later →
  storage.get_job_status later job db = None.
Proof.
  intros He Hd Hl. unfold storage.get_job_status, Redis.hgetall.
  rewrite He. unfold Redis.live. rewrite Hd.
  rewrite bool_decide_eq_false_2 by lia. by rewrite decide_True.
Qed.

End read_facts.

(* ===================================================================== *)
(** * Expiry                                                              *)
(* ===================================================================== *)

Section expiry_theorems.
Context `{Runtime}.
Variable settings : Settings.

(** C9 (as amended). [cleanup_expired_jobs] removes nothing and returns
    a fixed message, not a count.  Expiry is the time to live that
    [store_job_info] puts on the key, [job_expiry_hours * 3600] seconds
    from creation: whatever the job data, and so whatever its status, a
    record that was stored is found up to that deadline, and at every
    time past it the storage read finds nothing and the status query of
    the web router answers 404, with or without a cleanup run. *)
Theorem expiry_is_the_deadline_set_at_creation now job job_data db db1 :
  storage.store_job_info settings now job job_data db = (true, db1) →
  let deadline := now + job_expiry_hours settings * 3600 in
  (∀ db', tasks.cleanup_expired_jobs db'
          = ({[ "status" := "success"; "message" := "Cleanup completed" ]}, db'))
  ∧ (∀ later, now ≤ later → later ≤ deadline → 0 < job_expiry_hours settings →
       is_Some (storage.get_job_status later job db1)
       ∧ is_Some (storage.get_job_status later job (tasks.cleanup_expired_jobs db1).2))
  ∧ (∀ later, now ≤ later → deadline < later →
       storage.get_job_status later job db1 = None
       ∧ web.get_job_status_web later job db1 = inl (HTTPException 404 "Job not found")
       ∧ storage.get_job_status later job (tasks.cleanup_expired_jobs db1).2 = None).
Proof.
  intros Hstore deadline. split; [done|].
  destruct (store_job_info_deadline settings now job job_data db db1 Hstore)
    as (e & He & Hd & Hf).
  split.
  - intros later Hnow Hlater Hpos.
    assert (Hsome : is_Some (storage.get_job_status later job db1)); [|by split].
    apply get_job_status_is_Some.
    unfold Redis.hgetall, Redis.live. rewrite He, Hd.
    rewrite (proj2 (Z.ltb_lt 0 _)) by lia.
    rewrite bool_decide_eq_true_2 by (subst deadline; lia).
    rewrite Hf. intros Hem.
    assert (Hc : (omap Redis.encode (<["created_at" := PStr (isoformat now)]> job_data)
                  ∪ Redis.hgetall now (storage.job_key job) db) !! "created_at"
                 = Some (isoformat now)).
    { rewrite lookup_union, lookup_omap, lookup_insert_eq. simpl.
      by destruct (Redis.hgetall now (storage.job_key job) db !! "created_at"). }
    by rewrite Hem in Hc.
  - intros later Hnow Hlater.
    assert (Hnone : storage.get_job_status later job db1 = None).
    { eapply expired_reads_nothing; [exact He|exact Hd|].
      subst deadline. destruct (0 <? job_expiry_hours settings * 3600); lia. }
    split; [exact Hnone|]. split; [|exact Hnone].
    unfold web.get_job_status_web. by rewrite Hnone.
Qed.

End expiry_theorems.

(** A job stored at time 0 with the default 24 hours is read at the
    deadline, 86400, and is gone one second later. *)
Lemma expiry_is_the_deadline_set_at_creation_witness :
  let db1 := (storage.store_job_info (H := strict_runtime) default_settings 0 "j1"
                {[ "status" := PStr "pending" ]} ∅).2 in
  storage.store_job_info (H := strict_runtime) default_settings 0 "j1"
    {[ "status" := PStr "pending" ]} ∅ = (true, db1)
  ∧ is_Some (storage.get_job_status (H := strict_runtime) 86400 "j1" db1)
  ∧ storage.get_job_status (H := strict_runtime) 86401 "j1" db1 = None.
Proof.
  intros db1.
  assert (Hs : storage.store_job_info (H := strict_runtime) default_settings 0 "j1"
                 {[ "status" := PStr "pending" ]} ∅ = (true, db1))
    by (vm_compute; reflexivity).
  pose proof (expiry_is_the_deadline_set_at_creation (H := strict_runtime)
                default_settings 0 "j1" {[ "status" := PStr "pending" ]} ∅ db1 Hs)
    as (_ & Hbefore & Hafter).
  split; [exact Hs|]. split.
  - exact (proj1 (Hbefore 86400 ltac:(lia) ltac:(vm_compute; discriminate) ltac:(reflexivity))).
  - exact (proj1 (Hafter 86401 ltac:(lia) ltac:(reflexivity))).
Defined.

(** C9 as stated fails on the sweep: run on a store that holds a job
    record, [cleanup_expired_jobs] returns its fixed message, which holds
    no count, and the store it leaves is the store it found. *)
Lemma cleanup_returns_a_message_and_removes_nothing :
  let db1 := (storage.store_job_info (H := strict_runtime) default_settings 0 "j1"
                {[ "status" := PStr "pending" ]} ∅).2 in
  (tasks.cleanup_expired_jobs db1).1
  = {[ "status" := "success"; "message" := "Cleanup completed" ]}
  ∧ (tasks.cleanup_expired_jobs db1).2 = db1
  ∧ storage.get_job_status (H := strict_runtime) 100 "j1" (tasks.cleanup_expired_jobs db1).2
    = Some {[ "status" := PStr "pending"; "created_at" := PStr "T0" ]}.
Proof. intros db1. repeat apply conj; vm_compute; reflexivity. Qed.

(* ===================================================================== *)
(** * The pipeline run and the executions of the task                     *)
(* ===================================================================== *)

Section task_facts.
Context `{Runtime}.
Variable settings : Settings.
Implicit Types (a : tasks.args) (ws : nat → world).

Ltac unfold_pipeline :=
  unfold VideoProcessor.process_video, VideoProcessor.pipeline,
    VideoProcessor.bind, VideoProcessor.report, VideoProcessor.append_temp,
    VideoProcessor.require, VideoProcessor.join_value, VideoProcessor.ret,
    VideoProcessor.raise.

Ltac pick_mid mid :=
  exists mid; split;
    [repeat first [apply list_elem_of_here | apply list_elem_of_further]
    |first [by (right; right; left) | by (right; right; right; left)
           |(right; right; right; right; by eexists)]].

(** The progress values the pipeline reports, and how it ends. *)
Lemma process_video_shape w job url cust intro outro style ov preset :
  let r := VideoProcessor.process_video settings w job url cust intro outro
             style ov preset true in
  ∃ mid, mid ∈ [[]; [0.7%Q]; [0.8%Q]; [0.7%Q; 0.8%Q]] ∧
    ((VideoProcessor.outcome r = inl "Failed to download video"
      ∧ (VideoProcessor.callbacks r).*1 = [0.1%Q])
     ∨ (VideoProcessor.outcome r = inl "Failed to concatenate videos"
        ∧ (VideoProcessor.callbacks r).*1 = [0.1%Q; 0.3%Q; 0.5%Q])
     ∨ (VideoProcessor.outcome r = inl "Failed to encode final video"
        ∧ (VideoProcessor.callbacks r).*1 = [0.1%Q; 0.3%Q; 0.5%Q] ++ mid ++ [0.9%Q])
     ∨ (VideoProcessor.outcome r
          = inr (Py.join (VideoProcessor.output_dir settings) [job +:+ "_final.mp4"])
        ∧ (VideoProcessor.callbacks r).*1
          = [0.1%Q; 0.3%Q; 0.5%Q] ++ mid ++ [0.9%Q; 1.0%Q])
     ∨ (∃ e, watermark_error ov = Some e
             ∧ VideoProcessor.outcome r = inl e
             ∧ (VideoProcessor.callbacks r).*1 = [0.1%Q; 0.3%Q; 0.5%Q] ++ mid)).
Proof.
  intros r. subst r. unfold_pipeline. unfold watermark_error.
  destruct (VideoProcessor.download_video _ _ _); simpl;
    [|exists []; split; [apply list_elem_of_here|]; by left].
  destruct (VideoProcessor.concatenate_videos _ _ _); simpl;
    [|exists []; split; [apply list_elem_of_here|]; right; by left].
  destruct (default VideoProcessor.empty_overlay ov) as [txt [[s|truthy e]|]]; simpl;
    destruct txt; simpl;
    repeat match goal with
      | |- context [if ?b then _ else _] => destruct b; simpl
      end;
    first [ pick_mid [0.7%Q; 0.8%Q] | pick_mid [0.7%Q] | pick_mid [0.8%Q]
          | pick_mid (@nil Q) ].
Qed.

(** An execution that does not return raises one of the three messages
    of the pipeline, or the [TypeError] of a watermark that is no
    string. *)
Lemma failure_messages w job url cust intro outro style ov preset e :
  VideoProcessor.outcome
    (VideoProcessor.process_video settings w job url cust intro outro style ov preset true)
  = inl e →
  e ∈ ["Failed to download video"; "Failed to concatenate videos";
       "Failed to encode final video"]
  ∨ watermark_error ov = Some e.
Proof.
  destruct (process_video_shape w job url cust intro outro style ov preset)
    as (mid & _ & Hcase).
  cbv zeta in Hcase.
  destruct Hcase as [[-> _]|[[-> _]|[[-> _]|[[-> _]|(e' & He' & -> & _)]]]];
    intros [= <-]; [left..|by right].
  - apply list_elem_of_here.
  - apply list_elem_of_further, list_elem_of_here.
  - do 2 apply list_elem_of_further. apply list_elem_of_here.
Qed.

Lemma run_processing_failed retries w a e :
  VideoProcessor.outcome (pipeline_of settings w a) = inl e →
  ∃ reported,
    tasks.run_processing settings retries w a
    = (tasks.starting :: reported ++ [tasks.failed e], tasks.retry retries e 60 2)
    ∧ Forall (λ c, ∃ p m, c = tasks.progress_callback p m) reported.
Proof.
  intros Ho. unfold tasks.run_processing. rewrite Ho.
  eexists. split; [reflexivity|].
  apply Forall_fmap, Forall_forall. intros [p m] _. by exists p, m.
Qed.

Lemma run_processing_returned retries w a out :
  VideoProcessor.outcome (pipeline_of settings w a) = inr out →
  ∃ reported,
    tasks.run_processing settings retries w a
    = (tasks.starting :: reported
         ++ [tasks.completed (storage.get_download_url settings w out)],
       tasks.Returned out (storage.get_download_url settings w out))
    ∧ Forall (λ c, ∃ p m, c = tasks.progress_callback p m) reported.
Proof.
  intros Ho. unfold tasks.run_processing. rewrite Ho.
  eexists. split; [reflexivity|].
  apply Forall_fmap, Forall_forall. intros [p m] _. by exists p, m.
Qed.

Lemma run_processing_exit retries w a :
  (tasks.run_processing settings retries w a).2
  = match VideoProcessor.outcome (pipeline_of settings w a) with
    | inr out => tasks.Returned out (storage.get_download_url settings w out)
    | inl e => tasks.retry retries e 60 2
    end.
Proof.
  unfold tasks.run_processing.
  by destruct (VideoProcessor.outcome (pipeline_of settings w a)).
Qed.

Lemma retry_exit retries e :
  tasks.retry retries e 60 2
  = if decide (retries < 2)%nat then tasks.Retry e 60 else tasks.Raised e.
Proof. unfold tasks.retry. repeat case_decide; (done || lia). Qed.

Lemma run_processing_exit_cases retries w a :
  (∃ e, VideoProcessor.outcome (pipeline_of settings w a) = inl e
        ∧ (tasks.run_processing settings retries w a).2
          = if decide (retries < 2)%nat then tasks.Retry e 60 else tasks.Raised e)
  ∨ (∃ out, VideoProcessor.outcome (pipeline_of settings w a) = inr out
            ∧ (tasks.run_processing settings retries w a).2
              = tasks.Returned out (storage.get_download_url settings w out)).
Proof.
  rewrite run_processing_exit.
  destruct (VideoProcessor.outcome (pipeline_of settings w a)) as [e|out].
  - left. exists e. by rewrite retry_exit.
  - right. by exists out.
Qed.

(** What an execution awaits last says how it ended. *)
Lemma run_processing_last retries w a :
  match (tasks.run_processing settings retries w a).2 with
  | tasks.Returned out url =>
      VideoProcessor.outcome (pipeline_of settings w a) = inr out
      ∧ url = storage.get_download_url settings w out
      ∧ last (tasks.run_processing settings retries w a).1 = Some (tasks.completed url)
  | tasks.Retry e countdown =>
      VideoProcessor.outcome (pipeline_of settings w a) = inl e
      ∧ countdown = 60 ∧ (retries < 2)%nat
      ∧ last (tasks.run_processing settings retries w a).1 = Some (tasks.failed e)
  | tasks.Raised e =>
      VideoProcessor.outcome (pipeline_of settings w a) = inl e
      ∧ (2 ≤ retries)%nat
      ∧ last (tasks.run_processing settings retries w a).1 = Some (tasks.failed e)
  end.
Proof.
  destruct (VideoProcessor.outcome (pipeline_of settings w a)) as [e|out] eqn:Ho.
  - destruct (run_processing_failed retries w a e Ho) as (reported & -> & _).
    cbn [fst snd]. rewrite retry_exit, app_comm_cons, last_snoc.
    case_decide; repeat split; (done || lia).
  - destruct (run_processing_returned retries w a out Ho) as (reported & -> & _).
    cbn [fst snd]. by rewrite app_comm_cons, last_snoc.
Qed.


Lemma deliver_step more retries ws a :
  worker.deliver settings more retries ws a
  = match (tasks.run_processing settings retries (ws retries) a).2, more with
    | tasks.Retry exc countdown, S k =>
        worker.Attempt (tasks.run_processing settings retries (ws retries) a).1
                      (tasks.Retry exc countdown)
        :: worker.deliver settings k (S retries) ws a
    | e, _ => [worker.Attempt (tasks.run_processing settings retries (ws retries) a).1 e]
    end.
Proof.
  destruct more; simpl; unfold tasks.process_video_task;
    destruct (tasks.run_processing settings retries (ws retries) a) as [cs e];
    by destruct e.
Qed.



(** The worker makes at most [3 - retries] executions. *)
Lemma deliver_length more retries ws a :
  (length (worker.deliver settings more retries ws a) ≤ Nat.max 1 (3 - retries))%nat.
Proof.
  revert retries. induction more as [|k IH]; intros retries; rewrite deliver_step.
  - destruct ((tasks.run_processing settings retries (ws retries) a).2); simpl; lia.
  - destruct (run_processing_exit_cases retries (ws retries) a)
      as [(e & _ & ->)|(out & _ & ->)]; [|simpl; lia].
    case_decide; [|simpl; lia].
    simpl. specialize (IH (S retries)). lia.
  Qed.

(** Following more re-deliveries than the budget changes nothing. *)
Lemma deliver_enough more more' retries ws a :
  (2 - retries ≤ more)%nat → (2 - retries ≤ more')%nat →
  worker.deliver settings more retries ws a = worker.deliver settings more' retries ws a.
Proof.
  revert more' retries. induction more as [|k IH]; intros more' retries Hm Hm';
    [rewrite (deliver_step 0 retries) | rewrite (deliver_step (S k) retries)];
    rewrite (deliver_step more' retries);
    destruct (run_processing_exit_cases retries (ws retries) a)
      as [(e & _ & ->)|(out & _ & ->)];
    try (by destruct more').
  - rewrite decide_False by lia. by destruct more'.
  - case_decide; [|by destruct more'].
    destruct more' as [|k']; [lia|].
    f_equal. apply IH; lia.
Qed.

Lemma deliver_nonempty more retries ws a :
  worker.deliver settings more retries ws a ≠ [].
Proof.
  rewrite deliver_step.
  by destruct ((tasks.run_processing settings retries (ws retries) a).2), more.
Qed.

(** Every execution but the last ended in a retry with countdown 60,
    and the last one did not when the budget was followed to its end. *)
Lemma deliver_results more retries ws a :
  let atts := worker.deliver settings more retries ws a in
  (∀ i att, atts !! i = Some att → (S i < length atts)%nat →
     ∃ e, worker.result att = tasks.Retry e 60)
  ∧ ((2 - retries ≤ more)%nat →
     ∀ att, last atts = Some att → ∀ e c, worker.result att ≠ tasks.Retry e c).
Proof.
  revert retries. induction more as [|k IH]; intros retries atts; subst atts;
    rewrite deliver_step;
    destruct (run_processing_exit_cases retries (ws retries) a)
      as [(e & _ & ->)|(out & _ & ->)].
  - split.
    + intros [|i] att Hi Hlen; destruct (decide _); simpl in *; lia.
    + intros Hm. rewrite decide_False by lia. by intros att [= <-].
  - split.
    + intros [|i] att Hi Hlen; simpl in *; lia.
    + by intros _ att [= <-].
  - case_decide as Hr.
    + destruct (IH (S retries)) as [IH1 IH2]. split.
      * intros [|i] att Hi Hlen; simpl in *.
        -- injection Hi as <-. by exists e.
        -- apply (IH1 i att Hi). lia.
      * intros Hm att. rewrite last_cons.
        destruct (last (worker.deliver settings k (S retries) ws a)) as [x|] eqn:Hl.
        -- intros [= <-]. apply IH2; [lia|done].
        -- apply last_None in Hl. by apply deliver_nonempty in Hl.
    + split.
      * intros [|i] att Hi Hlen; simpl in *; lia.
      * by intros _ att [= <-].
  - split.
    + intros [|i] att Hi Hlen; simpl in *; lia.
    + by intros _ att [= <-].
Qed.


End task_facts.

(* ===================================================================== *)
(** * The job store as the worker and the API leave it                    *)
(* ===================================================================== *)

Section worker_facts.
Context `{Runtime}.
Implicit Types (db : gmap string Redis.entry) (c : tasks.call).

(** In the worker process the update answers [False] and writes
    nothing. *)
Lemma update_job_status_in_worker now job updates db :
  storage.update_job_status_in storage.CeleryWorker now job updates db = (false, db).
Proof. reflexivity. Qed.

Lemma perform_writes_nothing job t c db : worker.perform job t c db = db.
Proof. reflexivity. Qed.

Lemma replay_stores job clock i cs db :
  Forall (λ tdb, tdb.2 = db) (worker.replay job clock i cs db).
Proof.
  revert i. induction cs as [|c cs IH]; intros i; simpl; [constructor|].
  rewrite perform_writes_nothing. constructor; [done|apply IH].
Qed.

Lemma final_db_unchanged job clock i cs db : final_db job clock i cs db = db.
Proof.
  unfold final_db. pose proof (replay_stores job clock i cs db) as Hall.
  destruct (last (worker.replay job clock i cs db)) as [tdb|] eqn:Hl; [|done].
  simpl. apply last_Some_elem_of in Hl.
  by apply (proj1 (Forall_forall _ _) Hall) in Hl.
Qed.

(** A job without a record has none at any read that follows a call of
    the worker. *)
Lemma status_reads_nothing job clock cs db :
  db !! storage.job_key job = None →
  Forall (λ read, read = None) (worker.status_reads job clock cs db).
Proof.
  intros Hnone. unfold worker.status_reads.
  apply Forall_fmap. eapply Forall_impl; [apply replay_stores|].
  intros [t db'] Hdb. simpl in *. subst db'.
  by apply get_job_status_missing.
Qed.

Lemma job_data_of_overlay job request :
  routes.job_data_of job request !! "overlay_settings"
  = Some (PDict (default VideoProcessor.empty_overlay (routes.overlay request))).
Proof. vm_compute. reflexivity. Qed.

Lemma job_data_of_progress job request :
  routes.job_data_of job request !! "progress" = Some (PFloat 0.0).
Proof. vm_compute. reflexivity. Qed.

(** [store_job_info] stores nothing when the client refuses a value. *)
Lemma store_job_info_refused settings now job job_data db f v :
  job_data !! f = Some v → f ≠ "created_at" → Redis.encode v = None →
  storage.store_job_info settings now job job_data db = (false, db).
Proof.
  intros Hf Hne Hv. unfold storage.store_job_info, Redis.hset.
  destruct (decide (_ = ∅)) as [|_]; [done|].
  destruct (decide (Redis.encodable _)) as [Henc|]; [|done].
  assert (Hl : <["created_at" := PStr (isoformat now)]> job_data !! f = Some v)
    by by rewrite lookup_insert_ne.
  destruct (Henc f v Hl) as [s Hs]. by rewrite Hv in Hs.
Qed.

(** The job data of [POST /process] always holds a dict, which the
    client refuses. *)
Lemma store_job_info_refuses_request settings now job request db :
  storage.store_job_info settings now job (routes.job_data_of job request) db
  = (false, db).
Proof.
  eapply store_job_info_refused; [apply job_data_of_overlay|discriminate|reflexivity].
Qed.

(** A request that passes the two checks of [POST /process]. *)
Lemma process_video_accepted settings now job request st :
  routes.video_url request ≠ "" →
  Py.strip (routes.customer_name request) ≠ "" →
  routes.process_video settings now job request st
  = (routes.App (routes.db st) (routes.queue st ++ [task_of job request]),
     inr {| routes.pv_job_id := job; routes.pv_status := "pending";
            routes.pv_message := "Video processing job started successfully" |}).
Proof.
  intros Hurl Hname.
  assert (H1 : negb (Py.truthy_str (routes.video_url request)) = false).
  { destruct (routes.video_url request); [by exfalso; apply Hurl|reflexivity]. }
  assert (H2 : negb (Py.truthy_str (routes.customer_name request))
               || (String.length (Py.strip (routes.customer_name request)) =? 0)%nat
               = false).
  { apply orb_false_iff. split.
    - destruct (routes.customer_name request); [by exfalso; apply Hname|reflexivity].
    - apply Nat.eqb_neq. intros Hlen.
      destruct (Py.strip (routes.customer_name request)); [by apply Hname|].
      discriminate Hlen. }
  unfold routes.process_video, routes.process_video_try.
  rewrite H1, H2, store_job_info_refuses_request. reflexivity.
Qed.

End worker_facts.

(* ===================================================================== *)
(** * The record of a job that ran                                        *)
(* ===================================================================== *)

Section terminal_theorems.
Context `{Runtime}.
Variable settings : Settings.


(** C2, what the code does: [POST /process] with a valid request answers
    that the job is pending and queues its task, but the record it
    builds, with progress 0.0, is not stored: the client refuses the
    dict under [overlay_settings], [store_job_info] answers [False] and
    the handler goes on.  The task then runs in the worker process, where
    no update is written.  So for a job id that had no record, no read
    of the store finds one, at creation or after any call of the task,
    and no progress value is ever observed: the status query of the web
    router answers 404 and that of the API answers 500. *)
Theorem no_status_read_finds_the_job now job request st (ws : nat → world)
    (clock : nat → Z) (more : nat) :
  routes.video_url request ≠ "" →
  Py.strip (routes.customer_name request) ≠ "" →
  routes.db st !! storage.job_key job = None →
  let r := routes.process_video settings now job request st in
  let cs := worker.all_writes (worker.deliver settings more 0 ws (task_of job request)) in
  r.2 = inr {| routes.pv_job_id := job; routes.pv_status := "pending";
               routes.pv_message := "Video processing job started successfully" |}
  ∧ routes.queue r.1 = routes.queue st ++ [task_of job request]
  ∧ routes.job_data_of job request !! "progress" = Some (PFloat 0.0)
  ∧ storage.store_job_info settings now job (routes.job_data_of job request) (routes.db st)
    = (false, routes.db st)
  ∧ routes.db r.1 = routes.db st
  ∧ (∀ later,
       storage.get_job_status later job (routes.db r.1) = None
       ∧ web.get_job_status_web later job (routes.db r.1)
         = inl (HTTPException 404 "Job not found"))
  ∧ Forall (λ read, read = None) (worker.status_reads job clock cs (routes.db r.1))
  ∧ (∀ later,
       storage.get_job_status later job (final_db job clock 0 cs (routes.db r.1)) = None
       ∧ web.get_job_status_web later job (final_db job clock 0 cs (routes.db r.1))
         = inl (HTTPException 404 "Job not found"))
  ∧ (∀ stack, ∃ detail,
       routes.get_job_status (S stack) job = inl (HTTPException 500 detail)).
Proof.
  intros Hurl Hname Hfresh r cs. subst r.
  rewrite (process_video_accepted settings now job request st Hurl Hname).
  cbn [fst snd routes.db routes.queue].
  assert (Hread : ∀ later, storage.get_job_status later job (routes.db st) = None
                   ∧ web.get_job_status_web later job (routes.db st)
                     = inl (HTTPException 404 "Job not found")).
  { intros later.
    assert (Hn : storage.get_job_status later job (routes.db st) = None)
      by by apply get_job_status_missing.
    split; [exact Hn|]. unfold web.get_job_status_web. by rewrite Hn. }
  split; [done|]. split; [done|]. split; [apply job_data_of_progress|].
  split; [apply store_job_info_refuses_request|]. split; [done|].
  split; [exact Hread|]. split; [by apply status_reads_nothing|].
  split; [intros later; rewrite final_db_unchanged; apply Hread|].
  intros stack. eexists. apply get_job_status_handler_500.
Qed.

(** C3, what the code does: an execution whose pipeline fails awaits the
    update to failed, with the error, at once, whatever its retry count,
    and then asks for a retry with a countdown of 60 seconds if fewer
    than 2 retries were made and raises for good otherwise, so that the
    worker makes at most three executions and nothing more is run after
    them.  But the executions run in the worker process, where no update
    is written: the store is left as it was, and a job without a record
    has none after the last failed execution; it is never recorded as
    failed. *)
Theorem failed_job_is_retried_but_never_recorded (ws : nat → world) (a : tasks.args) :
  (∀ retries w e,
     VideoProcessor.outcome (pipeline_of settings w a) = inl e →
     (tasks.run_processing settings retries w a).2
     = (if decide (retries < 2)%nat then tasks.Retry e 60 else tasks.Raised e)
     ∧ last (tasks.run_processing settings retries w a).1 = Some (tasks.failed e))
  ∧ (∀ more,
       let atts := worker.deliver settings more 0 ws a in
       (length atts ≤ 3)%nat
       ∧ (∀ i att, atts !! i = Some att → (S i < length atts)%nat →
            ∃ e, worker.result att = tasks.Retry e 60)
       ∧ ((2 ≤ more)%nat → atts = worker.deliver settings 2 0 ws a)
       ∧ ((2 ≤ more)%nat → ∀ att, last atts = Some att →
            ∀ e c, worker.result att ≠ tasks.Retry e c))
  ∧ (∀ more clock db,
       let db' := final_db (tasks.job_id a) clock 0
                    (worker.all_writes (worker.deliver settings more 0 ws a)) db in
       db' = db
       ∧ ∀ later, storage.get_job_status later (tasks.job_id a) db = None →
           storage.get_job_status later (tasks.job_id a) db' = None
           ∧ web.get_job_status_web later (tasks.job_id a) db'
             = inl (HTTPException 404 "Job not found")).
Proof.
  split; [|split].
  - intros retries w e Ho. split.
    + by rewrite run_processing_exit, Ho, retry_exit.
    + destruct (run_processing_failed settings retries w a e Ho) as (reported & -> & _).
      cbn [fst]. by rewrite app_comm_cons, last_snoc.
  - intros more atts. subst atts.
    destruct (deliver_results settings more 0 ws a) as [Hmid Hlast].
    split; [apply (deliver_length settings more 0 ws a)|].
    split; [exact Hmid|]. split.
    + intros Hm. apply deliver_enough; lia.
    + intros Hm. apply Hlast. lia.
  - intros more clock db db'. subst db'. rewrite final_db_unchanged.
    split; [done|]. intros later Hn. split; [exact Hn|].
    unfold web.get_job_status_web. by rewrite Hn.
Qed.

End terminal_theorems.

(** A valid request for a new job on an empty store. *)
Lemma no_status_read_finds_the_job_witness :
  routes.video_url sample_request ≠ ""
  ∧ Py.strip (routes.customer_name sample_request) ≠ ""
  ∧ routes.db (routes.process_video (H := strict_runtime) default_settings 0 "j1"
                 sample_request (routes.App ∅ [])).1 = ∅
  ∧ Forall (λ read, read = None)
      (worker.status_reads (H := strict_runtime) "j1" (λ i, Z.of_nat i)
         (worker.all_writes
            (worker.deliver (H := strict_runtime) default_settings 2 0
               (λ _, fair_world) (task_of "j1" sample_request)))
         (routes.db (routes.process_video (H := strict_runtime) default_settings 0 "j1"
                       sample_request (routes.App ∅ [])).1)).
Proof.
  assert (H1 : routes.video_url sample_request ≠ "") by discriminate.
  assert (H2 : Py.strip (routes.customer_name sample_request) ≠ "") by discriminate.
  pose proof (no_status_read_finds_the_job (H := strict_runtime) default_settings 0 "j1"
                sample_request (routes.App ∅ []) (λ _, fair_world) (λ i, Z.of_nat i) 2
                H1 H2 eq_refl) as (_ & _ & _ & _ & Hdb & _ & Hreads & _).
  split; [exact H1|]. split; [exact H2|]. split; [exact Hdb|exact Hreads].
Defined.

(** The sample job where everything works: the one execution returns the
    output and its download URL, after seven calls to the store, and no
    read finds the job. *)
Example job_that_completes_is_not_recorded :
  let atts := worker.deliver (H := strict_runtime) default_settings 2 0
                (λ _, fair_world) sample_args in
  worker.result <$> atts
  = [tasks.Returned "/app/outputs/j1_final.mp4" "/api/v1/download/j1_final.mp4"]
  ∧ length (worker.all_writes atts) = 7%nat
  ∧ storage.get_job_status (H := strict_runtime) 100 "j1"
      (final_db (H := strict_runtime) "j1" (λ i, Z.of_nat i) 0 (worker.all_writes atts) ∅)
    = None.
Proof. intros atts. repeat apply conj; vm_compute; reflexivity. Qed.

(** The sample job whose source cannot be fetched: three executions,
    two retries, and no record. *)
Example job_that_fails_is_not_recorded :
  let atts := worker.deliver (H := strict_runtime) default_settings 2 0
                (λ _, offline_world) sample_args in
  worker.result <$> atts
  = [tasks.Retry "Failed to download video" 60;
     tasks.Retry "Failed to download video" 60;
     tasks.Raised "Failed to download video"]
  ∧ storage.get_job_status (H := strict_runtime) 100 "j1"
      (final_db (H := strict_runtime) "j1" (λ i, Z.of_nat i) 0 (worker.all_writes atts) ∅)
    = None.
Proof. intros atts. repeat apply conj; vm_compute; reflexivity. Qed.

(* ===================================================================== *)
(** * Missing intro and outro assets                                      *)
(* ===================================================================== *)

Section segment_theorems.
Context `{Runtime}.
Variable settings : Settings.

Lemma watermark_error_default ov :
  watermark_error (Some (default VideoProcessor.empty_overlay ov)) = watermark_error ov.
Proof. by destruct ov. Qed.






End segment_theorems.


(** The same run, evaluated. *)
Example run_without_assets :
  VideoProcessor.video_segments default_settings bare_world "/app/temp/j1_input.mp4"
    (Some "intro.mp4") (Some "outro.mp4")
  = ["/app/temp/j1_input.mp4"]
  ∧ (tasks.run_processing (H := strict_runtime) default_settings 0 bare_world sample_args).2
    = tasks.Returned "/app/outputs/j1_final.mp4" "/api/v1/download/j1_final.mp4".
Proof. split; vm_compute; reflexivity. Qed.

(* ===================================================================== *)
(** * More of the job store                                               *)
(* ===================================================================== *)

Section job_store_extras.
Context `{Runtime}.
Variable settings : Settings.
Implicit Types (db : gmap string Redis.entry).

Lemma job_key_inj job job' : storage.job_key job = storage.job_key job' → job = job'.
Proof. unfold storage.job_key. simpl. intros Heq. by injection Heq. Qed.

Lemma lookup_expire_ne now key key' secs db :
  key ≠ key' → Redis.expire now key secs db !! key' = db !! key'.
Proof.
  intros Hne. unfold Redis.expire.
  destruct (db !! key) as [e|]; [destruct (Redis.live now e)|];
    by rewrite ?lookup_insert_ne.
Qed.

(** X1. What [store_job_info] stored is what [get_job_status] returns
    until the deadline: every field of the job data comes back as the
    string the client stored for it, [created_at] is the clock reading
    of the store, and a float progress comes back as that float. *)
Theorem stored_job_reads_back now job job_data db db1 later :
  storage.store_job_info settings now job job_data db = (true, db1) →
  later < now + job_expiry_hours settings * 3600 →
  ∃ view, storage.get_job_status later job db1 = Some view
    ∧ view !! "created_at" = Some (PStr (isoformat now))
    ∧ (∀ f v, job_data !! f = Some v → f ≠ "created_at" → f ≠ "progress" →
         ∃ s, Redis.encode v = Some s ∧ view !! f = Some (PStr s))
    ∧ (∀ q, job_data !! "progress" = Some (PFloat q) → roundtrips q →
         view !! "progress" = Some (PFloat q)).
Proof.
  intros Hst Hlater.
  destruct (store_job_info_deadline settings now job job_data db db1 Hst)
    as (e & He & Hd & Hf).
  assert (Henc : Redis.encodable (<["created_at" := PStr (isoformat now)]> job_data)).
  { unfold storage.store_job_info, Redis.hset in Hst.
    destruct (decide (<["created_at" := PStr (isoformat now)]> job_data = ∅)); [done|].
    destruct (decide (Redis.encodable _)); done. }
  assert (Hg : Redis.hgetall later (storage.job_key job) db1 = Redis.fields e).
  { unfold Redis.hgetall, Redis.live. rewrite He, Hd.
    rewrite bool_decide_eq_true_2; [done|].
    destruct (0 <? job_expiry_hours settings * 3600) eqn:Hpos; [lia|].
    apply Z.ltb_ge in Hpos. lia. }
  assert (Hc : Redis.fields e !! "created_at" = Some (isoformat now)).
  { rewrite Hf, lookup_union, lookup_omap, lookup_insert_eq. simpl.
    by destruct (Redis.hgetall now (storage.job_key job) db !! "created_at"). }
  destruct (get_job_status_is_Some later job db1) as [view Hv].
  { rewrite Hg. intros Hem. by rewrite Hem in Hc. }
  exists view. split; [done|]. split; [|split].
  - rewrite (get_job_status_lookup _ _ _ _ "created_at" Hv) by discriminate.
    by rewrite Hg, Hc.
  - intros f v Hfv Hfc Hfp.
    destruct (Henc f v) as [s Hs]; [by rewrite lookup_insert_ne|].
    exists s. split; [done|].
    rewrite (get_job_status_lookup _ _ _ _ f Hv) by done.
    rewrite Hg, Hf, lookup_union, lookup_omap, lookup_insert_ne by done.
    rewrite Hfv. simpl. rewrite Hs.
    by destruct (Redis.hgetall now (storage.job_key job) db !! f).
  - intros q Hq Hr.
    rewrite (get_job_status_progress _ _ _ _ Hv).
    rewrite Hg, Hf, lookup_union, lookup_omap, lookup_insert_ne by discriminate.
    rewrite Hq. simpl.
    destruct (Redis.hgetall now (storage.job_key job) db !! "progress"); simpl;
      unfold storage.read_progress; by rewrite Hr.
Qed.

(** X3. Writing one job never touches another: after
    [store_job_info] or [update_job_status] for a job, the entry of
    every other job is what it was; and an update that the client
    refuses answers [False] and leaves the whole store as it was. *)
Theorem job_writes_leave_other_jobs_alone now job job' data db :
  job ≠ job' →
  (storage.store_job_info settings now job data db).2 !! storage.job_key job'
  = db !! storage.job_key job'
  ∧ (storage.update_job_status now job data db).2 !! storage.job_key job'
    = db !! storage.job_key job'
  ∧ (∀ later,
       storage.get_job_status later job' (storage.update_job_status now job data db).2
       = storage.get_job_status later job' db)
  ∧ ((storage.update_job_status now job data db).1 = false →
     (storage.update_job_status now job data db).2 = db).
Proof.
  intros Hne.
  assert (Hk : storage.job_key job ≠ storage.job_key job')
    by (intros Heq; by apply job_key_inj in Heq).
  assert (Hu : (storage.update_job_status now job data db).2 !! storage.job_key job'
               = db !! storage.job_key job').
  { unfold storage.update_job_status, Redis.hset.
    repeat case_decide; simpl; try done. by apply lookup_hset_raw_ne. }
  split; [|split; [exact Hu|split]].
  - unfold storage.store_job_info, Redis.hset.
    repeat case_decide; simpl; try done.
    rewrite lookup_expire_ne by done. by apply lookup_hset_raw_ne.
  - intros later. unfold storage.get_job_status, Redis.hgetall. by rewrite Hu.
  - unfold storage.update_job_status, Redis.hset. by repeat case_decide.
Qed.

End job_store_extras.

Lemma stored_job_reads_back_witness :
  let db1 := (storage.store_job_info (H := strict_runtime) default_settings 0 "j1"
                {[ "status" := PStr "pending" ]} ∅).2 in
  storage.store_job_info (H := strict_runtime) default_settings 0 "j1"
    {[ "status" := PStr "pending" ]} ∅ = (true, db1)
  ∧ 100 < 0 + job_expiry_hours default_settings * 3600
  ∧ ∃ view, storage.get_job_status (H := strict_runtime) 100 "j1" db1 = Some view
      ∧ view !! "created_at" = Some (PStr "T0").
Proof.
  intros db1.
  assert (Hs : storage.store_job_info (H := strict_runtime) default_settings 0 "j1"
                 {[ "status" := PStr "pending" ]} ∅ = (true, db1))
    by (vm_compute; reflexivity).
  assert (Hl : 100 < 0 + job_expiry_hours default_settings * 3600) by reflexivity.
  split; [exact Hs|]. split; [exact Hl|].
  destruct (stored_job_reads_back (H := strict_runtime) default_settings 0 "j1"
              {[ "status" := PStr "pending" ]} ∅ db1 100 Hs Hl)
    as (view & Hv & Hc & _).
  exists view. split; [exact Hv| exact Hc].
Defined.

Lemma job_writes_leave_other_jobs_alone_witness :
  "j1" ≠ "j2"
  ∧ (storage.update_job_status (H := strict_runtime) 3 "j1"
       {[ "status" := PStr "failed" ]}
       {[ "job:j2" := Redis.Entry {[ "status" := "pending" ]} None ]}).2
      !! storage.job_key "j2"
    = ({[ "job:j2" := Redis.Entry {[ "status" := "pending" ]} None ]}
         : gmap string Redis.entry) !! storage.job_key "j2".
Proof.
  assert (Hne : "j1" ≠ "j2") by discriminate.
  split; [exact Hne|].
  exact (proj1 (proj2 (job_writes_leave_other_jobs_alone (H := strict_runtime)
    default_settings 3 "j1" "j2" {[ "status" := PStr "failed" ]}
    {[ "job:j2" := Redis.Entry {[ "status" := "pending" ]} None ]} Hne))).
Defined.

(* ===================================================================== *)
(** * Paths and file names                                              *)
(* ===================================================================== *)

Section basename_facts.

Lemma append_cons a r s : String a r +:+ s = String a (r +:+ s).
Proof. reflexivity. Qed.

Lemma append_nil s : "" +:+ s = s.
Proof. reflexivity. Qed.

Lemma append_assoc (a b c : string) : (a +:+ b) +:+ c = a +:+ (b +:+ c).
Proof.
  induction a as [|x a IH]; [done|]. rewrite !append_cons. by f_equal.
Qed.

Lemma contains_rfind c s : Py.contains c s = false → Py.rfind c s = -1.
Proof.
  induction s as [|a r IH]; simpl; [done|].
  intros [Ha Hr]%orb_false_iff. rewrite (IH Hr). simpl. by rewrite Ha.
Qed.

Lemma contains_app c s1 s2 :
  Py.contains c (s1 +:+ s2) = Py.contains c s1 || Py.contains c s2.
Proof.
  induction s1 as [|a r IH]; [done|].
  rewrite append_cons. simpl. rewrite <- orb_assoc. by f_equal.
Qed.

(** A name without separator is its own base name. *)
Lemma basename_plain n : Py.contains Py.sep n = false → Py.basename n = n.
Proof. intros Hn. unfold Py.basename. by rewrite (contains_rfind _ _ Hn). Qed.

Lemma basename_cons a r :
  0 ≤ Py.rfind Py.sep r → Py.basename (String a r) = Py.basename r.
Proof.
  intros Hk. unfold Py.basename. simpl.
  rewrite (proj2 (Z.leb_le 0 _) Hk).
  replace (Z.to_nat (Py.rfind Py.sep r + 1 + 1))
    with (S (Z.to_nat (Py.rfind Py.sep r + 1))) by lia.
  reflexivity.
Qed.

Lemma rfind_found c x n : 0 ≤ Py.rfind c (x +:+ String c n).
Proof.
  induction x as [|a r IH].
  - rewrite append_nil. simpl.
    destruct (0 <=? Py.rfind c n) eqn:Hk; [apply Z.leb_le in Hk; lia|].
    by rewrite Ascii.eqb_refl.
  - rewrite append_cons. simpl. rewrite (proj2 (Z.leb_le 0 _) IH). lia.
Qed.

(** What follows the last separator is the base name. *)
Lemma basename_after_sep x n :
  Py.contains Py.sep n = false → Py.basename (x +:+ String Py.sep n) = n.
Proof.
  intros Hn. induction x as [|a r IH].
  - rewrite append_nil. unfold Py.basename. simpl.
    rewrite (contains_rfind _ _ Hn). reflexivity.
  - rewrite append_cons, basename_cons; [exact IH|apply rfind_found].
Qed.

Lemma endswith_split c s :
  Py.endswith c s = true → ∃ x, s = x +:+ String c "".
Proof.
  induction s as [|a r IH]; [done|]. simpl.
  destruct r as [|b r'].
  - intros ->%Ascii.eqb_eq. by exists "".
  - intros Hr. destruct (IH Hr) as [x Hx]. exists (String a x).
    rewrite append_cons. by f_equal.
Qed.

(** [basename(join(d, n)) == n] for a name without separator. *)
Lemma basename_join d n :
  Py.contains Py.sep n = false → Py.basename (Py.join d [n]) = n.
Proof.
  intros Hn. unfold Py.join, Py.join_step. cbn [fold_left].
  assert (Hst : Py.startswith Py.sep n = false).
  { destruct n as [|a r]; [done|]. simpl in *. by apply orb_false_iff in Hn as [-> _]. }
  rewrite Hst.
  destruct d as [|a r]; [by apply basename_plain|].
  change (Py.truthy_str (String a r)) with true. cbn [negb orb].
  destruct (Py.endswith Py.sep (String a r)) eqn:He.
  - destruct (endswith_split _ _ He) as [x ->].
    rewrite append_assoc, append_cons, append_nil. by apply basename_after_sep.
  - by apply basename_after_sep.
Qed.

Lemma basename_idem p : Py.basename (Py.basename p) = Py.basename p.
Proof. apply basename_plain, basename_no_sep. Qed.

End basename_facts.

(* ===================================================================== *)
(** * The result URL and the download route                             *)
(* ===================================================================== *)

Section download_extras.
Variable settings : Settings.

(** X5.  When the storage type is not s3, the S3 settings are
    incomplete or the upload fails, the result URL of a job is
    the download route followed by the name of the output file, and
    [GET /download/] of that name serves the very file the pipeline
    wrote, when it is on disk as a regular file, and answers 404
    otherwise. *)
Theorem result_url_serves_the_output (w w' : world) (job : string) :
  Py.contains Py.sep job = false →
  storage_type settings ≠ "s3"
  ∨ Py.truthy_opt (aws_access_key_id settings)
    && Py.truthy_opt (aws_secret_access_key settings)
    && Py.truthy_opt (s3_bucket settings) = false
  ∨ s3_presign w
      (Py.join (VideoProcessor.output_dir settings) [job +:+ "_final.mp4"]) = None →
  let out := Py.join (VideoProcessor.output_dir settings) [job +:+ "_final.mp4"] in
  let name := job +:+ "_final.mp4" in
  storage.get_download_url settings w out = "/api/v1/download/" +:+ name
  ∧ download.download_file settings w' name
    = if path_exists w' out && path_isfile w' out
      then inr {| download.path := out; download.filename := name |}
      else inl (HTTPException 404 "File not found").
Proof.
  intros Hjob Hloc out name.
  assert (Hname : Py.contains Py.sep name = false).
  { subst name. rewrite contains_app, Hjob. reflexivity. }
  assert (Hbase : Py.basename out = name) by by apply basename_join.
  split.
  - unfold storage.get_download_url, storage.upload_to_s3_and_get_url,
      storage.local_download_url. fold out. rewrite Hbase.
    destruct Hloc as [Hty|[Hcred|Hs3]].
    + destruct (String.eqb_spec (storage_type settings) "s3"); done.
    + rewrite Hcred. by destruct (String.eqb (storage_type settings) "s3").
    + fold out in Hs3. rewrite Hs3.
      destruct (String.eqb (storage_type settings) "s3"); [|done].
      by destruct (Py.truthy_opt (aws_access_key_id settings)
                   && Py.truthy_opt (aws_secret_access_key settings)
                   && Py.truthy_opt (s3_bucket settings)).
  - unfold download.download_file. rewrite (basename_plain _ Hname).
    change (Py.join (local_storage_path settings) [name]) with out.
    by destruct (path_exists w' out), (path_isfile w' out).
Qed.

(** X6.  [GET /download/] looks at the base name of what it is given
    only: the path it serves is the output directory joined with a name
    without separator, and that path is on disk and is a regular file;
    every other request is answered by 404. *)
Theorem download_file_serves_base_names (w : world) (filename : string) :
  download.download_file settings w filename
  = download.download_file settings w (Py.basename filename)
  ∧ match download.download_file settings w filename with
    | inr r =>
        download.filename r = Py.basename filename
        ∧ Py.contains Py.sep (download.filename r) = false
        ∧ download.path r
          = Py.join (local_storage_path settings) [download.filename r]
        ∧ Py.basename (download.path r) = download.filename r
        ∧ path_exists w (download.path r) = true
        ∧ path_isfile w (download.path r) = true
    | inl e => e = HTTPException 404 "File not found"
    end.
Proof.
  split.
  - unfold download.download_file. by rewrite basename_idem.
  - unfold download.download_file.
    destruct (path_exists w _) eqn:He; [|done].
    destruct (path_isfile w _) eqn:Hf; [|done].
    cbn [negb reraise_http download.filename download.path].
    pose proof (basename_no_sep filename) as Hn.
    repeat split; try done. by apply basename_join.
Qed.

End download_extras.

Lemma result_url_serves_the_output_witness :
  Py.contains Py.sep "j1" = false
  ∧ storage_type default_settings ≠ "s3"
  ∧ storage.get_download_url default_settings fair_world
      (Py.join (VideoProcessor.output_dir default_settings) ["j1" +:+ "_final.mp4"])
    = "/api/v1/download/" +:+ ("j1" +:+ "_final.mp4").
Proof.
  assert (H1 : Py.contains Py.sep "j1" = false) by reflexivity.
  assert (H2 : storage_type default_settings ≠ "s3") by discriminate.
  split; [exact H1|]. split; [exact H2|].
  apply (result_url_serves_the_output default_settings fair_world fair_world "j1"
           H1 (or_introl H2)).
Defined.

(* ===================================================================== *)
(** * The pipeline run                                                  *)
(* ===================================================================== *)

Section pipeline_extras.
Variable settings : Settings.
Variable w : world.

Ltac unfold_pipeline :=
  unfold VideoProcessor.process_video, VideoProcessor.pipeline,
    VideoProcessor.bind, VideoProcessor.report, VideoProcessor.append_temp,
    VideoProcessor.require, VideoProcessor.join_value, VideoProcessor.ret,
    VideoProcessor.raise.

Ltac split_ifs :=
  repeat match goal with
    | |- context [if ?b then _ else _] => destruct b eqn:?; simpl
    end.

(** X8.  How a run ends depends on four things only: the download,
    the concatenation of the segments, the kind of value under
    [watermark_path] and the final encode.  A watermark that is truthy
    and no string ends the run with the [TypeError] of [os.path.join].
    Otherwise the watermark is best effort: the encode reads the
    watermarked file when a watermark is named, the logo is on disk and
    ffmpeg put it, at the bottom right, and the concatenated file in
    every other case.  The customer name, the transition style and the
    request for a text overlay have no part in it. *)
Theorem outcome_of_process_video job url cust intro outro style ov preset cb :
  let input_video := Py.join (VideoProcessor.temp_dir settings) [job +:+ "_input.mp4"] in
  let concat_output := Py.join (VideoProcessor.temp_dir settings) [job +:+ "_concat.mp4"] in
  let watermark_video :=
    Py.join (VideoProcessor.temp_dir settings) [job +:+ "_watermark.mp4"] in
  let final_output := Py.join (VideoProcessor.output_dir settings) [job +:+ "_final.mp4"] in
  let encoded (current_video : string) : string + string :=
    if VideoProcessor.encode_video w current_video final_output preset
    then inr final_output
    else inl "Failed to encode final video" in
  VideoProcessor.outcome
    (VideoProcessor.process_video settings w job url cust intro outro style ov preset cb)
  = if negb (http_fetch w url input_video) then inl "Failed to download video"
    else if negb (ffmpeg_concat w
                    (VideoProcessor.video_segments settings w input_video intro outro)
                    concat_output)
    then inl "Failed to concatenate videos"
    else match watermark_path (default VideoProcessor.empty_overlay ov) with
         | Some (NotText true join_error) => inl join_error
         | Some (Text name) =>
             let logo := Py.join (VideoProcessor.assets_dir settings) ["logos"; name] in
             encoded
               (if Py.truthy_str name && path_exists w logo
                   && VideoProcessor.add_watermark w concat_output watermark_video logo
                        "bottom-right"
                then watermark_video else concat_output)
         | _ => encoded concat_output
         end.
Proof.
  intros input_video concat_output watermark_video final_output encoded.
  subst encoded final_output watermark_video concat_output input_video.
  unfold_pipeline.
  unfold VideoProcessor.download_video, VideoProcessor.concatenate_videos.
  destruct (default VideoProcessor.empty_overlay ov) as [txt [[name|[|] e]|]], cb; simpl;
    repeat match goal with
      | |- context [if ?b then _ else _] => destruct b; simpl
      end; reflexivity.
Qed.

(** X9.  The progress values a run reports start at 0.1, go up strictly
    and stay within 0.1 and 1.0; the last one is 1.0 exactly when the
    run returns its output. *)
Theorem progress_reports_increase job url cust intro outro style ov preset :
  let r := VideoProcessor.process_video settings w job url cust intro outro
             style ov preset true in
  let ps := (VideoProcessor.callbacks r).*1 in
  head ps = Some 0.1%Q
  ∧ (∀ i p q, ps !! i = Some p → ps !! S i = Some q → (p < q)%Q)
  ∧ Forall (λ p, (0.1 <= p)%Q ∧ (p <= 1.0)%Q) ps
  ∧ (last ps = Some 1.0%Q ↔ ∃ out, VideoProcessor.outcome r = inr out).
Proof.
  intros r ps.
  destruct (process_video_shape settings w job url cust intro outro style ov preset)
    as (mid & Hmid & Hcase).
  fold r in Hcase. fold ps in Hcase.
  assert (Hm : mid = [] ∨ mid = [0.7%Q] ∨ mid = [0.8%Q] ∨ mid = [0.7%Q; 0.8%Q]).
  { repeat (apply elem_of_cons in Hmid as [->|Hmid]; [tauto|]).
    by apply elem_of_nil in Hmid. }
  clear Hmid.
  destruct Hcase as [[Ho ->]|[[Ho ->]|[[Ho ->]|[[Ho ->]|(e & _ & Ho & ->)]]]];
    try (destruct Hm as [->|[->|[->| ->]]]);
    (split; [reflexivity|]); (split; [|split]).
  all: try (intros i p q Hp Hq;
         do 8 (destruct i as [|i];
               [simpl in Hp, Hq;
                first [discriminate
                      |injection Hp as <-; injection Hq as <-; reflexivity]|]);
         simpl in Hp; discriminate).
  all: try (repeat (apply Forall_cons; split; [split; discriminate|]); by apply Forall_nil).
  all: try (split;
      [intros Hl; first [simpl in Hl; discriminate Hl | eexists; exact Ho]
      |intros [out Hout]; first [reflexivity | rewrite Ho in Hout; discriminate Hout]]).
Qed.

End pipeline_extras.

(* ===================================================================== *)
(** * Temporary files                                                   *)
(* ===================================================================== *)

Section name_facts.

Lemma length_append (a s : string) :
  String.length (a +:+ s) = (String.length a + String.length s)%nat.
Proof. induction a as [|c a IH]; [done|]. rewrite append_cons. simpl. by rewrite IH. Qed.

Lemma drop_append (a s : string) (k : nat) :
  Py.drop (String.length a + k) (a +:+ s) = Py.drop k s.
Proof. induction a as [|c a IH]; [done|]. rewrite append_cons. simpl. exact IH. Qed.

(** The last [n] characters of a string are those of its tail. *)
Lemma drop_to_tail (a s : string) (n : nat) :
  (n ≤ String.length s)%nat →
  Py.drop (String.length (a +:+ s) - n) (a +:+ s) = Py.drop (String.length s - n) s.
Proof.
  intros Hn. rewrite length_append.
  replace (String.length a + String.length s - n)%nat
    with (String.length a + (String.length s - n))%nat by lia.
  apply drop_append.
Qed.

(** [join(d, n)] ends in [n]. *)
Lemma join_ends d n : ∃ x, Py.join d [n] = x +:+ n.
Proof.
  unfold Py.join, Py.join_step. cbn [fold_left].
  destruct (Py.startswith Py.sep n); [by exists ""|].
  destruct (negb (Py.truthy_str d) || Py.endswith Py.sep d); [by exists d|].
  exists (d +:+ String Py.sep ""). by rewrite append_assoc.
Qed.

(** Two file names of a job that end differently are different files,
    whatever the directories. *)
Lemma joined_names_differ (n : nat) d d' job suf suf' :
  (n ≤ String.length suf)%nat → (n ≤ String.length suf')%nat →
  Py.drop (String.length suf - n) suf ≠ Py.drop (String.length suf' - n) suf' →
  Py.join d [job +:+ suf] ≠ Py.join d' [job +:+ suf'].
Proof.
  intros Hn Hn' Hne Heq. apply Hne.
  destruct (join_ends d (job +:+ suf)) as [x Hx].
  destruct (join_ends d' (job +:+ suf')) as [y Hy].
  rewrite Hx, Hy, <- !append_assoc in Heq.
  rewrite <- (drop_to_tail (x +:+ job) suf n Hn), Heq.
  by apply drop_to_tail.
Qed.

End name_facts.

Section cleanup_extras.
Variable settings : Settings.
Variable w : world.

Ltac unfold_pipeline :=
  unfold VideoProcessor.process_video, VideoProcessor.pipeline,
    VideoProcessor.bind, VideoProcessor.report, VideoProcessor.append_temp,
    VideoProcessor.require, VideoProcessor.join_value, VideoProcessor.ret,
    VideoProcessor.raise.

(** The [temp_files] list at the [finally] block. *)
Lemma temp_files_shape job url cust intro outro style ov preset cb :
  let input_video := Py.join (VideoProcessor.temp_dir settings) [job +:+ "_input.mp4"] in
  let concat_output := Py.join (VideoProcessor.temp_dir settings) [job +:+ "_concat.mp4"] in
  let text_overlay_video :=
    Py.join (VideoProcessor.temp_dir settings) [job +:+ "_text.mp4"] in
  let watermark_video :=
    Py.join (VideoProcessor.temp_dir settings) [job +:+ "_watermark.mp4"] in
  ∃ rest,
    VideoProcessor.cleaned
      (VideoProcessor.process_video settings w job url cust intro outro style ov preset cb)
    = filter (λ f, path_exists w f = true) (input_video :: rest)
    ∧ (rest = [] ∨ rest = [concat_output]
       ∨ rest = [concat_output; text_overlay_video]
       ∨ rest = [concat_output; watermark_video]
       ∨ rest = [concat_output; text_overlay_video; watermark_video])
    ∧ (http_fetch w url input_video = true → rest ≠ []).
Proof.
  intros input_video concat_output text_overlay_video watermark_video.
  unfold_pipeline. unfold VideoProcessor.download_video.
  fold input_video concat_output text_overlay_video watermark_video.
  destruct (http_fetch w url input_video) eqn:Hf.
  2: { exists []. destruct cb; cbn -[filter]; (split; [reflexivity|split; [by left|done]]). }
  destruct (default VideoProcessor.empty_overlay ov) as [txt [[wm|truthy e]|]], cb;
    cbn -[filter Py.join];
    repeat match goal with
      | |- context [if ?b then _ else _] => destruct b; cbn -[filter Py.join]
      end;
    eexists; (split; [reflexivity|split; [|done]]); tauto.
Qed.

(** X10.  When a run is over, with its output or with an exception, the
    files it removes are temporary files of this job that are on disk:
    the downloaded input whenever it is there, the concatenated file
    whenever the download worked and it is there.  The final output is
    never among them. *)
Theorem temporary_files_are_removed job url cust intro outro style ov preset cb :
  let r := VideoProcessor.process_video settings w job url cust intro outro
             style ov preset cb in
  let input_video := Py.join (VideoProcessor.temp_dir settings) [job +:+ "_input.mp4"] in
  let concat_output := Py.join (VideoProcessor.temp_dir settings) [job +:+ "_concat.mp4"] in
  let text_overlay_video :=
    Py.join (VideoProcessor.temp_dir settings) [job +:+ "_text.mp4"] in
  let watermark_video :=
    Py.join (VideoProcessor.temp_dir settings) [job +:+ "_watermark.mp4"] in
  let final_output := Py.join (VideoProcessor.output_dir settings) [job +:+ "_final.mp4"] in
  (∀ f, f ∈ VideoProcessor.cleaned r →
     path_exists w f = true
     ∧ f ∈ [input_video; concat_output; text_overlay_video; watermark_video])
  ∧ (path_exists w input_video = true → input_video ∈ VideoProcessor.cleaned r)
  ∧ (http_fetch w url input_video = true → path_exists w concat_output = true →
     concat_output ∈ VideoProcessor.cleaned r)
  ∧ final_output ∉ VideoProcessor.cleaned r.
Proof.
  intros r input_video concat_output text_overlay_video watermark_video final_output.
  destruct (temp_files_shape job url cust intro outro style ov preset cb)
    as (rest & Hcl & Hrest & Hfetch).
  fold r input_video concat_output text_overlay_video watermark_video in Hcl, Hrest, Hfetch.
  assert (Hin : ∀ f, f ∈ VideoProcessor.cleaned r →
            path_exists w f = true
            ∧ f ∈ [input_video; concat_output; text_overlay_video; watermark_video]).
  { intros f. rewrite Hcl. intros [Hex Hf]%list_elem_of_filter. split; [done|].
    apply elem_of_cons in Hf as [->|Hf]; [apply list_elem_of_here|].
    destruct Hrest as [->|[->|[->|[->| ->]]]];
      repeat (apply elem_of_cons in Hf as [->|Hf]);
      try (by apply elem_of_nil in Hf);
      repeat first [apply list_elem_of_here | apply list_elem_of_further]. }
  split; [exact Hin|]. split; [|split].
  - intros Hex. rewrite Hcl. apply list_elem_of_filter. split; [done|].
    apply list_elem_of_here.
  - intros Hf Hex. rewrite Hcl. apply list_elem_of_filter. split; [done|].
    apply list_elem_of_further.
    destruct Hrest as [->|[->|[->|[->| ->]]]];
      [by apply Hfetch in Hf|apply list_elem_of_here..].
  - intros Hfin. apply Hin in Hfin as [_ Hfin].
    repeat (apply elem_of_cons in Hfin as [Hfin|Hfin]);
      try (by apply elem_of_nil in Hfin);
      revert Hfin; apply (joined_names_differ 9); vm_compute; first [lia | discriminate].
Qed.

End cleanup_extras.

(* ===================================================================== *)
(** * Executions of a job                                               *)
(* ===================================================================== *)

Section delivery_extras.
Context `{Runtime}.
Variable settings : Settings.

(** X11.  The worker runs a job once more only after a failed
    execution: one execution when the first works, two when the first
    fails and the second works, three when the first two fail.  The
    execution numbered [i] runs with [request.retries = i], and after an
    execution that returned nothing more is run. *)
Theorem executions_follow_failures (ws : nat → world) (a : tasks.args) :
  let fails n :=
    match VideoProcessor.outcome (pipeline_of settings (ws n) a) with
    | inl _ => true
    | inr _ => false
    end in
  let atts := worker.deliver settings 2 0 ws a in
  length atts = (if fails 0%nat then if fails 1%nat then 3 else 2 else 1)%nat
  ∧ (∀ i att, atts !! i = Some att →
       att = worker.Attempt (tasks.run_processing settings i (ws i) a).1
                            (tasks.run_processing settings i (ws i) a).2)
  ∧ (∀ i att out url, atts !! i = Some att →
       worker.result att = tasks.Returned out url → S i = length atts).
Proof.
  intros fails atts. subst fails atts.
  rewrite (deliver_step settings 2 0).
  destruct (run_processing_exit_cases settings 0 (ws 0%nat) a)
    as [(e0 & Ho0 & He0)|(out0 & Ho0 & He0)]; rewrite Ho0.
  2: { rewrite He0. cbn [length]. split; [done|]. split.
       - intros [|i] att; [|done]. intros [= <-]. by rewrite He0.
       - by intros [|i] att out url. }
  rewrite decide_True in He0 by lia. rewrite He0.
  rewrite (deliver_step settings 1 1).
  destruct (run_processing_exit_cases settings 1 (ws 1%nat) a)
    as [(e1 & Ho1 & He1)|(out1 & Ho1 & He1)]; rewrite Ho1.
  2: { rewrite He1. cbn [length]. split; [done|]. split.
       - intros [|[|i]] att; [| |done]; intros [= <-]; by rewrite ?He0, ?He1.
       - intros [|[|i]] att out url; [|done..]. by intros [= <-]. }
  rewrite decide_True in He1 by lia. rewrite He1.
  rewrite (deliver_step settings 0 2).
  set (last := match (tasks.run_processing settings 2 (ws 2%nat) a).2 with
               | tasks.Retry _ _ | _ => _ end).
  assert (Hlast : last = [worker.Attempt (tasks.run_processing settings 2 (ws 2%nat) a).1
                            (tasks.run_processing settings 2 (ws 2%nat) a).2]).
  { subst last. by destruct ((tasks.run_processing settings 2 (ws 2%nat) a).2). }
  rewrite Hlast. cbn [length]. split; [done|]. split.
  - intros [|[|[|i]]] att; [| | |done]; intros [= <-]; by rewrite ?He0, ?He1.
  - intros [|[|[|i]]] att out url; [| | |done]; try done; by intros [= <-].
Qed.

End delivery_extras.

(* ===================================================================== *)
(** * Uploaded assets                                                   *)
(* ===================================================================== *)

Section upload_facts.
Implicit Types (keep : ascii → bool) (s : string).

Lemma keep_chars_kept keep s :
  Forall (λ c, keep c = true) (list_ascii_of_string (Py.keep_chars keep s)).
Proof.
  induction s as [|c r IH]; simpl; [constructor|].
  destruct (keep c) eqn:Hc; [|done]. simpl. by constructor.
Qed.

Lemma keep_chars_id keep s :
  Forall (λ c, keep c = true) (list_ascii_of_string s) → Py.keep_chars keep s = s.
Proof.
  induction s as [|c r IH]; simpl; [done|].
  intros [Hc Hr]%Forall_cons. rewrite Hc. f_equal. by apply IH.
Qed.

Lemma take_kept (P : ascii → Prop) n s :
  Forall P (list_ascii_of_string s) → Forall P (list_ascii_of_string (Py.take n s)).
Proof.
  revert s. induction n as [|k IH]; intros [|c r] Hs; simpl; try constructor.
  - by apply Forall_cons in Hs as [? ?].
  - apply IH. by apply Forall_cons in Hs as [? ?].
Qed.

Lemma take_length n s : (String.length (Py.take n s) ≤ n)%nat.
Proof.
  revert s. induction n as [|k IH]; intros [|c r]; simpl; try lia.
  specialize (IH r). lia.
Qed.

Lemma slice_to_kept (P : ascii → Prop) n s :
  Forall P (list_ascii_of_string s) → Forall P (list_ascii_of_string (Py.slice_to n s)).
Proof. intros Hs. unfold Py.slice_to. destruct (0 <=? n); by apply take_kept. Qed.

Lemma safe_char_not_sep high c :
  FileManager.safe_char high c = true → Ascii.eqb c Py.sep = false.
Proof.
  intros Hc. destruct (Ascii.eqb_spec c Py.sep) as [->|]; [|done].
  discriminate Hc.
Qed.

Lemma safe_chars_no_sep high s :
  Forall (λ c, FileManager.safe_char high c = true) (list_ascii_of_string s) →
  Py.contains Py.sep s = false.
Proof.
  induction s as [|c r IH]; simpl; [done|].
  intros [Hc Hr]%Forall_cons.
  by rewrite (safe_char_not_sep high c Hc), (IH Hr).
Qed.

Lemma safe_filename_kept maxlen high filename :
  Forall (λ c, FileManager.safe_char high c = true)
    (list_ascii_of_string (FileManager.safe_filename maxlen high filename)).
Proof.
  unfold FileManager.safe_filename.
  destruct (maxlen <? _); [apply slice_to_kept|]; apply keep_chars_kept.
Qed.

End upload_facts.

Section upload_extras.
Variable settings : Settings.
Variable max_file_size : Z.
Variable max_filename_length : Z.
Variable upload_path : string.
Variable isalnum_high : ascii → bool.
Variable write_ok : string → bool.

(** X12.  The name under which an upload is saved is made of letters,
    digits, dots, underscores and hyphens only, so it holds no path
    separator; it is at most [max_filename_length] characters long, and
    sanitising it again changes nothing.  The file is written directly
    into the directory chosen by the subfolder. *)
Theorem saved_name_is_sanitised (file_filename subfolder : string) :
  0 ≤ max_filename_length →
  let name := FileManager.safe_filename max_filename_length isalnum_high file_filename in
  Forall (λ c, FileManager.safe_char isalnum_high c = true) (list_ascii_of_string name)
  ∧ Py.contains Py.sep name = false
  ∧ Z.of_nat (String.length name) ≤ max_filename_length
  ∧ FileManager.safe_filename max_filename_length isalnum_high name = name
  ∧ ∀ p, FileManager.save_uploaded_file settings max_filename_length upload_path
           isalnum_high write_ok file_filename subfolder = inr p →
         p = Py.join (FileManager.save_dir settings upload_path subfolder) [name]
         ∧ Py.basename p = name.
Proof.
  intros Hmax name.
  pose proof (safe_filename_kept max_filename_length isalnum_high file_filename) as Hk.
  fold name in Hk.
  pose proof (safe_chars_no_sep _ _ Hk) as Hsep.
  assert (Hlen : Z.of_nat (String.length name) ≤ max_filename_length).
  { subst name. unfold FileManager.safe_filename.
    destruct (max_filename_length <? _) eqn:Hlt; [|lia].
    unfold Py.slice_to. rewrite (proj2 (Z.leb_le 0 _) Hmax).
    pose proof (take_length (Z.to_nat max_filename_length)
                  (Py.keep_chars (FileManager.safe_char isalnum_high) file_filename)).
    lia. }
  split; [exact Hk|]. split; [exact Hsep|]. split; [exact Hlen|]. split.
  - unfold FileManager.safe_filename at 1. rewrite (keep_chars_id _ _ Hk).
    destruct (max_filename_length <? _) eqn:Hlt; [lia|done].
  - intros p. unfold FileManager.save_uploaded_file. fold name.
    destruct (write_ok _); [|done]. intros [= <-]. split; [done|].
    by apply basename_join.
Qed.

(** X13.  An upload that is accepted names one of the three asset
    types and a file, and is not larger than allowed; the answer repeats
    the name as the client gave it, while the file is saved under the
    sanitised name in the folder of its type, which is where
    [GET /asset/] and the segment assembly of the pipeline look for that
    name. *)
Theorem uploaded_asset_is_found (asset_type file_filename : string) (size : Z)
    (r : web.UploadResponse) :
  web.upload_asset settings max_file_size max_filename_length upload_path
    isalnum_high write_ok asset_type file_filename size = inr r →
  let name := FileManager.safe_filename max_filename_length isalnum_high file_filename in
  let saved := Py.join (assets_path settings) [asset_type; name] in
  asset_type ∈ ["intros"; "outros"; "logos"]
  ∧ file_filename ≠ "" ∧ size ≤ max_file_size
  ∧ web.filename r = file_filename
  ∧ FileManager.save_uploaded_file settings max_filename_length upload_path
      isalnum_high write_ok file_filename asset_type = inr saved
  ∧ (∀ w, path_exists w saved = true →
       download.download_asset settings w asset_type name
       = inr {| download.path := saved; download.filename := name |})
  ∧ (∀ w, path_exists w saved = true → name ≠ "" →
       VideoProcessor.named_asset settings w asset_type (Some name) = [saved]).
Proof.
  intros Hup name saved.
  pose proof (safe_filename_kept max_filename_length isalnum_high file_filename) as Hk.
  fold name in Hk.
  pose proof (safe_chars_no_sep _ _ Hk) as Hsep.
  unfold web.upload_asset in Hup.
  destruct (bool_decide (asset_type ∈ ["intros"; "outros"; "logos"])) eqn:Hty;
    [|discriminate Hup].
  apply bool_decide_eq_true in Hty.
  destruct (Py.truthy_str file_filename) eqn:Hfn; [|discriminate Hup].
  destruct (max_file_size <? size) eqn:Hsz; [discriminate Hup|].
  cbn [negb] in Hup.
  assert (Hdir : FileManager.save_dir settings upload_path asset_type
                 = Py.join (assets_path settings) [asset_type]).
  { unfold FileManager.save_dir.
    repeat (apply elem_of_cons in Hty as [->|Hty]; [reflexivity|]).
    by apply elem_of_nil in Hty. }
  assert (Hsave : FileManager.save_uploaded_file settings max_filename_length upload_path
                    isalnum_high write_ok file_filename asset_type = inr saved
                  ∧ web.filename r = file_filename).
  { revert Hup. unfold FileManager.save_uploaded_file.
    fold name. rewrite Hdir.
    change (Py.join (Py.join (assets_path settings) [asset_type]) [name]) with saved.
    destruct (write_ok saved); [|by destruct (PyError _ _)].
    cbn [reraise_http]. by intros [= <-]. }
  destruct Hsave as [Hsave Hr].
  split; [exact Hty|]. split; [by destruct file_filename|].
  split; [by apply Z.ltb_ge|]. split; [exact Hr|]. split; [exact Hsave|]. split.
  - intros w Hex. unfold download.download_asset.
    rewrite (bool_decide_eq_true_2 _ Hty). cbn [negb].
    rewrite (basename_plain _ Hsep).
    assert (Hp : download.asset_paths settings !! asset_type
                 = Some (Py.join (assets_path settings) [asset_type])).
    { repeat (apply elem_of_cons in Hty as [->|Hty]; [reflexivity|]).
      by apply elem_of_nil in Hty. }
    rewrite Hp.
    change (Py.join (Py.join (assets_path settings) [asset_type]) [name]) with saved.
    by rewrite Hex.
  - intros w Hex Hne. unfold VideoProcessor.named_asset.
    destruct name as [|c n] eqn:Hn; [done|]. cbn [Py.truthy_str].
    change (Py.join (VideoProcessor.assets_dir settings) [asset_type; String c n])
      with saved.
    by rewrite Hex.
Qed.

End upload_extras.

Lemma saved_name_is_sanitised_witness :
  0 ≤ 255
  ∧ Py.contains Py.sep
      (FileManager.safe_filename 255 (λ _, false) "../my intro.mp4") = false.
Proof.
  assert (H1 : 0 ≤ 255) by lia.
  split; [exact H1|].
  apply (saved_name_is_sanitised default_settings 255 "/app/uploads" (λ _, false)
           (λ _, true) "../my intro.mp4" "intros" H1).
Defined.

Lemma uploaded_asset_is_found_witness :
  web.upload_asset default_settings 524288000 255 "/app/uploads" (λ _, false)
    (λ _, true) "intros" "my intro.mp4" 1000
  = inr {| web.success := true; web.message := "Intros uploaded successfully";
           web.filename := "my intro.mp4" |}
  ∧ FileManager.save_uploaded_file default_settings 255 "/app/uploads" (λ _, false)
      (λ _, true) "my intro.mp4" "intros"
    = inr (Py.join (assets_path default_settings)
             ["intros"; FileManager.safe_filename 255 (λ _, false) "my intro.mp4"]).
Proof.
  assert (H1 : web.upload_asset default_settings 524288000 255 "/app/uploads" (λ _, false)
                 (λ _, true) "intros" "my intro.mp4" 1000
               = inr {| web.success := true;
                        web.message := "Intros uploaded successfully";
                        web.filename := "my intro.mp4" |}) by (vm_compute; reflexivity).
  split; [exact H1|].
  apply (uploaded_asset_is_found default_settings 524288000 255 "/app/uploads"
           (λ _, false) (λ _, true) "intros" "my intro.mp4" 1000 _ H1).
Defined.

(* ===================================================================== *)
(** * How an execution ends                                               *)
(* ===================================================================== *)

Section execution_extras.
Context `{Runtime}.
Variable settings : Settings.

(** X14.  How an execution ends and the update it awaits last agree.
    One that returns hands back the output file of the job and its
    download URL, and the last update it awaits is the one to completed
    with that URL.  Any other ends with one of the three messages of
    the pipeline, or with the [TypeError] of a watermark that is no
    string; the last update it awaits is the one to failed with that
    error, and it asks for a retry in 60 seconds when fewer than two
    retries were made and raises otherwise. *)
Theorem execution_ends_as_its_last_update (retries : nat) (w : world) (a : tasks.args) :
  let cs := (tasks.run_processing settings retries w a).1 in
  let messages := ["Failed to download video"; "Failed to concatenate videos";
                   "Failed to encode final video"] in
  match (tasks.run_processing settings retries w a).2 with
  | tasks.Returned out url =>
      out = Py.join (VideoProcessor.output_dir settings) [tasks.job_id a +:+ "_final.mp4"]
      ∧ url = storage.get_download_url settings w out
      ∧ last cs = Some (tasks.completed url)
  | tasks.Retry e countdown =>
      (e ∈ messages ∨ watermark_error (tasks.overlay a) = Some e)
      ∧ countdown = 60 ∧ (retries < 2)%nat
      ∧ last cs = Some (tasks.failed e)
  | tasks.Raised e =>
      (e ∈ messages ∨ watermark_error (tasks.overlay a) = Some e)
      ∧ (2 ≤ retries)%nat ∧ last cs = Some (tasks.failed e)
  end.
Proof.
  intros cs messages. subst cs messages.
  pose proof (run_processing_last settings retries w a) as Hlast.
  destruct ((tasks.run_processing settings retries w a).2) as [out url|e c|e].
  - destruct Hlast as (Ho & Hu & Hl). split; [|by split].
    destruct (process_video_shape settings w (tasks.job_id a) (tasks.video_url a)
                (tasks.customer_name a) (tasks.intro_clip a) (tasks.outro_clip a)
                (tasks.transition_style a)
                (Some (default VideoProcessor.empty_overlay (tasks.overlay a)))
                (tasks.encoding_preset a)) as (mid & _ & Hcase).
    cbv zeta in Hcase. rewrite Ho in Hcase.
    destruct Hcase as [[Hc _]|[[Hc _]|[[Hc _]|[[Hc _]|(e' & _ & Hc & _)]]]];
      try discriminate Hc.
    by injection Hc.
  - destruct Hlast as (Ho & Hc & Hr & Hl). split; [|by repeat split].
    rewrite <- (watermark_error_default (tasks.overlay a)).
    by eapply failure_messages.
  - destruct Hlast as (Ho & Hr & Hl). split; [|by split].
    rewrite <- (watermark_error_default (tasks.overlay a)).
    by eapply failure_messages.
Qed.

End execution_extras.
